(** * PhotoTaggingPage: the attendee tagging page

    A shallow embedding of [src/pages/PhotoTagging/PhotoTaggingPage.tsx].
    The component's [useState] cells are the fields of one record, every
    handler is a function on that record which also returns the effects
    it asks for (HTTP requests, timers), and every [await] splits a
    handler in the part before the request and the part that runs when
    the answer arrives.

    A string holds the UTF-8 bytes of the JavaScript string.  [trim]
    strips the code points ECMAScript lists as white space and line
    terminators.  [toLowerCase], whose case tables are no part of the
    page, is a parameter of the definitions that call it. *)

From Stdlib Require Import List String Ascii Bool Arith NArith Lia Permutation.
Import ListNotations.
Open Scope string_scope.
Open Scope list_scope.

(** ** The JavaScript string methods the page calls *)

Module JS.

(** [s.includes(t)]: [t] occurs in [s] as a contiguous run. *)
Fixpoint includes (s t : string) : bool :=
  match s with
  | EmptyString => String.prefix t EmptyString
  | String _ r => String.prefix t s || includes r t
  end.

(** [s.split(sep)] for a one-character separator. *)
Fixpoint split (sep : ascii) (s : string) : list string :=
  match s with
  | EmptyString => [EmptyString]
  | String c r =>
      if Ascii.eqb c sep then EmptyString :: split sep r
      else match split sep r with
           | h :: t => String c h :: t
           | [] => [String c EmptyString]
           end
  end.

(** [xs[i]] on an array of strings; [None] is [undefined]. *)
Definition at_index (xs : list string) (i : nat) : option string :=
  nth_error xs i.

Definition lower_ascii (c : ascii) : ascii :=
  let n := nat_of_ascii c in
  if ((65 <=? n)%nat && (n <=? 90)%nat) then ascii_of_nat (n + 32) else c.

(** [s.toLowerCase()] on a string of ASCII characters, where it folds
    A-Z and nothing else.  The page's own [toLowerCase] is a parameter
    (see [Section Page]); this one runs the examples. *)
Fixpoint toLowerCaseAscii (s : string) : string :=
  match s with
  | EmptyString => EmptyString
  | String c r => String (lower_ascii c) (toLowerCaseAscii r)
  end.

(** The number of a byte. *)
Definition code (c : ascii) : N := N_of_ascii c.

(** The UTF-8 bytes of a code point. *)
Definition utf8 (cp : N) : string :=
  if (cp <? 128)%N then String (ascii_of_N cp) EmptyString
  else if (cp <? 2048)%N then
    String (ascii_of_N (192 + cp / 64))
      (String (ascii_of_N (128 + cp mod 64)) EmptyString)
  else if (cp <? 65536)%N then
    String (ascii_of_N (224 + cp / 4096))
      (String (ascii_of_N (128 + (cp / 64) mod 64))
         (String (ascii_of_N (128 + cp mod 64)) EmptyString))
  else
    String (ascii_of_N (240 + cp / 262144))
      (String (ascii_of_N (128 + (cp / 4096) mod 64))
         (String (ascii_of_N (128 + (cp / 64) mod 64))
            (String (ascii_of_N (128 + cp mod 64)) EmptyString))).

(** ECMAScript's WhiteSpace: TAB, VT, FF, ZWNBSP (U+FEFF) and the space
    separators SP, NBSP, U+1680, U+2000 to U+200A, U+202F, U+205F,
    U+3000. *)
Definition whiteSpace : list N :=
  [9; 11; 12; 65279; 32; 160; 5760; 8192; 8193; 8194; 8195; 8196; 8197;
   8198; 8199; 8200; 8201; 8202; 8239; 8287; 12288]%N.

(** ECMAScript's LineTerminator: LF, CR, U+2028, U+2029. *)
Definition lineTerminators : list N := [10; 13; 8232; 8233]%N.

(** The code points [trim] strips. *)
Definition strippedByTrim : list N := whiteSpace ++ lineTerminators.

(** The three tests below read a stripped code point off its UTF-8
    bytes: one byte, two bytes (C2 A0), three bytes. *)
Definition white1 (c : ascii) : bool :=
  let n := code c in
  ((n =? 32) || ((9 <=? n) && (n <=? 13)))%N.

Definition white2 (c1 c2 : ascii) : bool :=
  ((code c1 =? 194) && (code c2 =? 160))%N.

Definition white3 (c1 c2 c3 : ascii) : bool :=
  let n1 := code c1 in
  let n2 := code c2 in
  let n3 := code c3 in
  (((n1 =? 225) && (n2 =? 154) && (n3 =? 128))
   || ((n1 =? 226) && (n2 =? 128)
       && (((128 <=? n3) && (n3 <=? 138)) || (n3 =? 168) || (n3 =? 169)
           || (n3 =? 175)))
   || ((n1 =? 226) && (n2 =? 129) && (n3 =? 159))
   || ((n1 =? 227) && (n2 =? 128) && (n3 =? 128))
   || ((n1 =? 239) && (n2 =? 187) && (n3 =? 191)))%N.

(** One stripped code point taken off the front, if there is one. *)
Definition dropWhite (s : string) : option string :=
  match s with
  | String c1 r1 =>
      if white1 c1 then Some r1
      else match r1 with
           | String c2 r2 =>
               if white2 c1 c2 then Some r2
               else match r2 with
                    | String c3 r3 => if white3 c1 c2 c3 then Some r3 else None
                    | EmptyString => None
                    end
           | EmptyString => None
           end
  | EmptyString => None
  end.

(** [s.trimStart()]. *)
Fixpoint trimStart (s : string) : string :=
  match s with
  | String c1 r1 =>
      if white1 c1 then trimStart r1
      else match r1 with
           | String c2 r2 =>
               if white2 c1 c2 then trimStart r2
               else match r2 with
                    | String c3 r3 => if white3 c1 c2 c3 then trimStart r3 else s
                    | EmptyString => s
                    end
           | EmptyString => s
           end
  | EmptyString => EmptyString
  end.

(** [s.trimEnd()]: [s] without its longest suffix made of stripped code
    points. *)
Fixpoint trimEnd (s : string) : string :=
  match s with
  | EmptyString => EmptyString
  | String c r =>
      if String.eqb (trimStart s) EmptyString then EmptyString
      else String c (trimEnd r)
  end.

(** [s.trim()]. *)
Definition trim (s : string) : string := trimEnd (trimStart s).

(** A string used as a condition: only the empty string is falsy. *)
Definition truthy_string (s : string) : bool := negb (String.eqb s EmptyString).

(** A possibly [undefined] string used as a condition. *)
Definition truthy (o : option string) : bool :=
  match o with
  | Some s => truthy_string s
  | None => false
  end.

(** [a || b] on possibly [undefined] strings with a string fallback. *)
Definition or_else (o : option string) (d : string) : string :=
  match o with
  | Some s => if truthy_string s then s else d
  | None => d
  end.

(** A possibly [undefined] value inside a template literal. *)
Definition interpolate (o : option string) : string :=
  match o with
  | Some s => s
  | None => "undefined"
  end.

Fixpoint count_char (c : ascii) (s : string) : nat :=
  match s with
  | EmptyString => 0
  | String d r => (if Ascii.eqb d c then 1 else 0) + count_char c r
  end.

End JS.

(** ** Data model *)

Record UserDetails := mkUserDetails {
  id : string;
  email : string;
  firstName : string;
  lastName : string
}.

(** [attEventId] is the field [eventId] of the interface; the route
    parameter of the same name keeps the plain name below.  The optional
    flag [isLoadingDetails] is set on every entry this page builds, and
    an absent flag reads like [false] in the one test made on it. *)
Record AttendeeForTagging := mkAttendee {
  PK : string;
  SK : string;
  userId : string;
  role : string;
  joinDate : option string;
  organizationName : string;
  attEventId : string;
  userDetails : option UserDetails;
  isLoadingDetails : bool
}.

(** What [getEventAttendees] may hand back for one attendee: a string,
    an object (with or without a [userId] field), or anything else
    ([null], a number, ...). *)
Inductive RawAttendee :=
| RawString (s : string)
| RawObject (userIdField : option string)
| RawOther.

(** Route parameters and the authentication context. *)
Record Context := mkContext {
  orgId : option string;
  eventId : option string;
  photoId : option string;
  user : option UserDetails;
  token : option string
}.

Definition hash : ascii := "#"%char.

(** Lines 128-133: the bare ID of one raw entry. *)
Definition normalizeUserId (attIdInfo : RawAttendee) : string :=
  match attIdInfo with
  | RawString s =>
      if JS.includes s "#"
      then match JS.at_index (JS.split hash s) 1 with
           | Some x => x
           | None => ""
           end
      else s
  | RawObject f => JS.or_else f ""
  | RawOther => ""
  end.

(** Lines 135-144: the entry built for one raw attendee. *)
Definition makeAttendee (cx : Context) (attIdInfo : RawAttendee) : AttendeeForTagging :=
  let userId := normalizeUserId attIdInfo in
  {| PK := "USER#" ++ userId;
     SK := "EVENT#" ++ JS.interpolate (eventId cx);
     userId := userId;
     role := "MEMBER";
     joinDate := None;
     organizationName := JS.interpolate (orgId cx);
     attEventId := JS.interpolate (eventId cx);
     userDetails := None;
     isLoadingDetails := true |}.

(** Lines 127-145: [attendeeIds.map(...).filter(att => att.userId)]. *)
Definition initialAttendeeList (cx : Context) (attendeeIds : list RawAttendee)
  : list AttendeeForTagging :=
  filter (fun att => JS.truthy_string (userId att)) (map (makeAttendee cx) attendeeIds).

(** ** Page state: one field per [useState] cell (lines 44-58) *)

Record PageState := mkPageState {
  searchTerm : string;
  attendees : list AttendeeForTagging;
  filteredAttendees : list AttendeeForTagging;
  loading : bool;
  error : option string;
  success : option string;
  selectedMembers : list string;
  submitting : bool;
  eventName : string;
  displayCount : nat;
  hasMore : bool;
  loadingMore : bool
}.

Definition initialDisplayCount : nat := 12.

Definition initialState : PageState :=
  {| searchTerm := ""; attendees := []; filteredAttendees := [];
     loading := true; error := None; success := None;
     selectedMembers := []; submitting := false; eventName := "";
     displayCount := 12; hasMore := true; loadingMore := false |}.

Definition setSearchTerm (v : string) (st : PageState) : PageState :=
  mkPageState v (attendees st) (filteredAttendees st) (loading st) (error st)
    (success st) (selectedMembers st) (submitting st) (eventName st)
    (displayCount st) (hasMore st) (loadingMore st).

Definition setAttendees (v : list AttendeeForTagging) (st : PageState) : PageState :=
  mkPageState (searchTerm st) v (filteredAttendees st) (loading st) (error st)
    (success st) (selectedMembers st) (submitting st) (eventName st)
    (displayCount st) (hasMore st) (loadingMore st).

Definition setFilteredAttendees (v : list AttendeeForTagging) (st : PageState) : PageState :=
  mkPageState (searchTerm st) (attendees st) v (loading st) (error st)
    (success st) (selectedMembers st) (submitting st) (eventName st)
    (displayCount st) (hasMore st) (loadingMore st).

Definition setLoading (v : bool) (st : PageState) : PageState :=
  mkPageState (searchTerm st) (attendees st) (filteredAttendees st) v (error st)
    (success st) (selectedMembers st) (submitting st) (eventName st)
    (displayCount st) (hasMore st) (loadingMore st).

Definition setError (v : option string) (st : PageState) : PageState :=
  mkPageState (searchTerm st) (attendees st) (filteredAttendees st) (loading st) v
    (success st) (selectedMembers st) (submitting st) (eventName st)
    (displayCount st) (hasMore st) (loadingMore st).

Definition setSuccess (v : option string) (st : PageState) : PageState :=
  mkPageState (searchTerm st) (attendees st) (filteredAttendees st) (loading st)
    (error st) v (selectedMembers st) (submitting st) (eventName st)
    (displayCount st) (hasMore st) (loadingMore st).

Definition setSelectedMembers (v : list string) (st : PageState) : PageState :=
  mkPageState (searchTerm st) (attendees st) (filteredAttendees st) (loading st)
    (error st) (success st) v (submitting st) (eventName st)
    (displayCount st) (hasMore st) (loadingMore st).

Definition setSubmitting (v : bool) (st : PageState) : PageState :=
  mkPageState (searchTerm st) (attendees st) (filteredAttendees st) (loading st)
    (error st) (success st) (selectedMembers st) v (eventName st)
    (displayCount st) (hasMore st) (loadingMore st).

Definition setEventName (v : string) (st : PageState) : PageState :=
  mkPageState (searchTerm st) (attendees st) (filteredAttendees st) (loading st)
    (error st) (success st) (selectedMembers st) (submitting st) v
    (displayCount st) (hasMore st) (loadingMore st).

Definition setDisplayCount (v : nat) (st : PageState) : PageState :=
  mkPageState (searchTerm st) (attendees st) (filteredAttendees st) (loading st)
    (error st) (success st) (selectedMembers st) (submitting st) (eventName st)
    v (hasMore st) (loadingMore st).

Definition setHasMore (v : bool) (st : PageState) : PageState :=
  mkPageState (searchTerm st) (attendees st) (filteredAttendees st) (loading st)
    (error st) (success st) (selectedMembers st) (submitting st) (eventName st)
    (displayCount st) v (loadingMore st).

Definition setLoadingMore (v : bool) (st : PageState) : PageState :=
  mkPageState (searchTerm st) (attendees st) (filteredAttendees st) (loading st)
    (error st) (success st) (selectedMembers st) (submitting st) (eventName st)
    (displayCount st) (hasMore st) v.

(** ** Effects a handler asks for *)

Inductive Callback :=
| Navigate (path : string)
| ClearLoadingMore.

Inductive Effect :=
| HttpGet (url : string)
| HttpPost (url : string) (userIds : list string)
| GetEventAttendees (org ev : string)
| SetTimeout (cb : Callback) (ms : nat).

Definition isPost (e : Effect) : bool :=
  match e with HttpPost _ _ => true | _ => false end.

(** Requests that leave the browser. *)
Definition isNetwork (e : Effect) : bool :=
  match e with
  | HttpGet _ | HttpPost _ _ | GetEventAttendees _ _ => true
  | SetTimeout _ _ => false
  end.

(** ** What the backend may answer *)

(** The rejection of the POST: [err.response?.data?.message]. *)
Record ErrorData := mkErrorData { message : option string }.
Record ErrorResponse := mkErrorResponse { data : option ErrorData }.
Record AxiosError := mkAxiosError { response : option ErrorResponse }.

Inductive PostResult :=
| PostOk
| PostFailed (err : AxiosError).

Definition apiErrorMessage (err : AxiosError) : option string :=
  match response err with
  | Some r => match data r with
              | Some d => message d
              | None => None
              end
  | None => None
  end.

(** [userResponse.data?.data?.user] of [GET /users/{userId}]. *)
Record UserData := mkUserData {
  userEmail : option string;
  userFirstName : option string;
  userLastName : option string
}.

Inductive UserResponse :=
| UserOk (userData : option UserData)
| UserFailed.

(** ** Attendee loader *)

Definition detailsPath (uid : string) : string := "/users/" ++ uid.

Definition isCurrentUser (cx : Context) (uid : string) : bool :=
  match user cx with
  | Some u => String.eqb uid (id u)
  | None => false
  end.

(** Lines 61-89.  [get] is the answer of [GET /users/{userId}]; it is
    consulted only when the attendee is not the signed-in user. *)
Definition fetchUserDetails (cx : Context) (get : string -> UserResponse)
    (uid : string) : option UserDetails :=
  let fromApi :=
    match get (detailsPath uid) with
    | UserOk (Some d) =>
        if JS.truthy (userFirstName d) && JS.truthy (userLastName d)
        then Some (mkUserDetails uid
                     (JS.or_else (userEmail d) (uid ++ "@unknown.com"))
                     (JS.interpolate (userFirstName d))
                     (JS.interpolate (userLastName d)))
        else None
    | UserOk None => None
    | UserFailed => None
    end in
  match user cx with
  | Some u =>
      if String.eqb uid (id u)
      then Some (mkUserDetails (id u) (email u) (firstName u) (lastName u))
      else fromApi
  | None => fromApi
  end.

Definition missingIds (cx : Context) : bool :=
  negb (JS.truthy (orgId cx)) || negb (JS.truthy (eventId cx))
  || negb (JS.truthy (photoId cx)).

Definition eventPath (cx : Context) : string :=
  "/organizations/" ++ JS.interpolate (orgId cx) ++ "/events/"
  ++ JS.interpolate (eventId cx).

Definition photoPath (cx : Context) : string :=
  eventPath cx ++ "/photos/" ++ JS.interpolate (photoId cx).

Definition tagsPath (cx : Context) : string := photoPath cx ++ "/tags".

(** Lines 94-108: up to the first [await]. *)
Definition fetchInitialAttendees_start (cx : Context) (st : PageState)
  : PageState * list Effect :=
  if missingIds cx
  then (setLoading false (setError (Some "Missing organization, event, or photo ID") st), [])
  else (setError None (setLoading true st), [HttpGet (eventPath cx)]).

(** Lines 109-116: the event title arrived ([Some title], the title
    possibly [undefined]) or its request failed ([None]). *)
Definition fetchInitialAttendees_title (cx : Context) (r : option (option string))
    (st : PageState) : PageState * list Effect :=
  let st' := match r with
             | Some title => setEventName (JS.or_else title "Event") st
             | None => setEventName "Event" st
             end in
  (st', [GetEventAttendees (JS.interpolate (orgId cx)) (JS.interpolate (eventId cx))]).

(** The request one attendee's detail fetch sends, if any. *)
Definition detailRequest (cx : Context) (a : AttendeeForTagging) : list Effect :=
  if isCurrentUser cx (userId a) then [] else [HttpGet (detailsPath (userId a))].

(** Lines 118-172: the attendee list arrived ([Some ids], the list
    possibly [undefined]) or its request failed ([None]). *)
Definition fetchInitialAttendees_list (cx : Context)
    (r : option (option (list RawAttendee))) (st : PageState)
  : PageState * list Effect :=
  match r with
  | None =>
      (setLoading false (setHasMore false (setFilteredAttendees []
         (setAttendees []
            (setError (Some "Failed to load event attendees. Please try again later.") st)))),
       [])
  | Some None | Some (Some []) =>
      (setLoading false (setHasMore false (setFilteredAttendees []
         (setAttendees [] st))), [])
  | Some (Some attendeeIds) =>
      let l := initialAttendeeList cx attendeeIds in
      (setLoading false
         (setHasMore (initialDisplayCount <? List.length l)%nat
            (setDisplayCount (Nat.min (List.length l) initialDisplayCount)
               (setFilteredAttendees l (setAttendees l st)))),
       flat_map (detailRequest cx) l)
  end.

(** Line 159: [{ ...a, userDetails: details, isLoadingDetails: false }]. *)
Definition withDetails (details : option UserDetails) (a : AttendeeForTagging)
  : AttendeeForTagging :=
  mkAttendee (PK a) (SK a) (userId a) (role a) (joinDate a)
    (organizationName a) (attEventId a) details false.

(** Lines 157-161: the updater run when one attendee's details arrive. *)
Definition applyDetails (uid : string) (details : option UserDetails)
    (prev : list AttendeeForTagging) : list AttendeeForTagging :=
  map (fun a => if String.eqb (userId a) uid then withDetails details a else a) prev.

(** Lines 154-155: [initialAttendeeList.forEach] starts one detail fetch
    per entry, named here by the entry's [userId]; the fetches settle in
    any order. *)
Definition fetchesStarted (l : list AttendeeForTagging) : list string :=
  map userId l.

Definition detailsSettled (uid : string) (details : option UserDetails)
    (st : PageState) : PageState :=
  setAttendees (applyDetails uid details (attendees st)) st.

(** ** The page, given JavaScript's lower-casing *)

Section Page.

(** [String.prototype.toLowerCase]: Unicode's case tables are not part
    of the page, so the method is taken as it comes. *)
Variable toLowerCase : string -> string.

(** A lemma depends on [toLowerCase] only when its statement names it. *)
Set Default Proof Using "Type".

(** ** Filter and pager *)

(** Lines 185-198: the predicate handed to [attendees.filter]. *)
Definition matchesSearch (searchLower : string) (attendee : AttendeeForTagging) : bool :=
  if isLoadingDetails attendee
  then JS.includes (toLowerCase (userId attendee)) searchLower
  else
    match userDetails attendee with
    | Some d =>
        let fullName := toLowerCase (firstName d ++ " " ++ lastName d) in
        JS.includes fullName searchLower
        || JS.includes (toLowerCase (email d)) searchLower
    | None => JS.includes (toLowerCase (userId attendee)) searchLower
    end.

(** Lines 181-199: the list [applyFilter] computes. *)
Definition filterAttendees (term : string) (l : list AttendeeForTagging)
  : list AttendeeForTagging :=
  if negb (String.eqb (JS.trim term) "")
  then filter (matchesSearch (toLowerCase term)) l
  else l.

(** Lines 180-205. *)
Definition applyFilter (st : PageState) : PageState :=
  let filtered := filterAttendees (searchTerm st) (attendees st) in
  setHasMore (initialDisplayCount <? List.length filtered)%nat
    (setDisplayCount (Nat.min (List.length filtered) initialDisplayCount)
       (setFilteredAttendees filtered st)).

(** Line 212: [filteredAttendees.slice(0, displayCount)]. *)
Definition visibleAttendees (st : PageState) : list AttendeeForTagging :=
  firstn (displayCount st) (filteredAttendees st).

(** Lines 215-222. *)
Definition handleLoadMore (st : PageState) : PageState * list Effect :=
  let newDisplayCount :=
    Nat.min (displayCount st + initialDisplayCount) (List.length (filteredAttendees st)) in
  (setHasMore (newDisplayCount <? List.length (filteredAttendees st))%nat
     (setDisplayCount newDisplayCount (setLoadingMore true st)),
   [SetTimeout ClearLoadingMore 200]).

(** Lines 225-229. *)
Definition handleSearchChange (value : string) (st : PageState) : PageState :=
  setDisplayCount initialDisplayCount (setSearchTerm value st).

(** ** Selection tracker *)

(** [prev.includes(userId)] on an array of strings. *)
Definition arrayIncludes (prev : list string) (uid : string) : bool :=
  existsb (String.eqb uid) prev.

(** Lines 237-243: the updater of [handleMemberSelect]. *)
Definition toggleMember (uid : string) (prev : list string) : list string :=
  if arrayIncludes prev uid
  then filter (fun id => negb (String.eqb id uid)) prev
  else prev ++ [uid].

(** Lines 236-244. *)
Definition handleMemberSelect (uid : string) (st : PageState) : PageState :=
  setSelectedMembers (toggleMember uid (selectedMembers st)) st.

(** ** Tag submitter *)

(** Lines 248-266: the guards and the state set before the request is
    sent.  [inl] is a rejected submission, [inr] carries the URL and the
    body of the POST. *)
Definition handleSubmitTags_start (cx : Context) (st : PageState)
  : PageState + (PageState * string * list string) :=
  if (List.length (selectedMembers st) =? 0)%nat
  then inl (setError (Some "Please select at least one member to tag") st)
  else if missingIds cx
  then inl (setError (Some "Missing organization, event, or photo ID") st)
  else inr (setSuccess None (setError None (setSubmitting true st)),
            tagsPath cx, selectedMembers st).

(** Lines 268-283: the state set once the request has settled. *)
Definition handleSubmitTags_settled (cx : Context) (r : PostResult) (st : PageState)
  : PageState * list Effect :=
  match r with
  | PostOk =>
      (setSelectedMembers []
         (setSubmitting false (setSuccess (Some "Members tagged successfully!") st)),
       [SetTimeout (Navigate (photoPath cx)) 1500])
  | PostFailed err =>
      (setSubmitting false
         (setError (Some (JS.or_else (apiErrorMessage err)
                            "Failed to tag members. Please try again.")) st),
       [])
  end.

(** Lines 247-284, run against a backend that answers [post url body]. *)
Definition handleSubmitTags (cx : Context) (post : string -> list string -> PostResult)
    (st : PageState) : PageState * list Effect :=
  match handleSubmitTags_start cx st with
  | inl st' => (st', [])
  | inr (st', url, body) =>
      let '(st'', es) := handleSubmitTags_settled cx (post url body) st' in
      (st'', HttpPost url body :: es)
  end.

(** Lines 287-289. *)
Definition handleCancel (cx : Context) : Callback := Navigate (photoPath cx).

(** ** What is on screen *)

(** Lines 367-371: the text of the error alert, when there is one. *)
Definition errorAlert (st : PageState) : option string :=
  match error st with
  | Some m => if JS.truthy_string m then Some m else None
  | None => None
  end.

(** Lines 373-381. *)
Definition successAlert (st : PageState) : option string :=
  match success st with
  | Some m => if JS.truthy_string m then Some m else None
  | None => None
  end.

(** Lines 385-396: the card grid and what follows it are rendered. *)
Definition gridRendered (st : PageState) : bool :=
  negb (loading st) && negb (List.length (filteredAttendees st) =? 0)%nat.

(** Line 436: [!searchTerm && hasMore], inside the grid branch. *)
Definition loadMoreRendered (st : PageState) : bool :=
  gridRendered st && negb (JS.truthy_string (searchTerm st)) && hasMore st.

(** Line 429: the card toggles only with resolved details. *)
Definition selectable (a : AttendeeForTagging) : bool :=
  match userDetails a with
  | Some _ => negb (isLoadingDetails a)
  | None => false
  end.

(** Line 478. *)
Definition submitDisabled (st : PageState) : bool :=
  (List.length (selectedMembers st) =? 0)%nat || submitting st || loading st.

(** ** The page as a transition system *)

Inductive Event :=
| Mount
| EventTitleArrived (r : option (option string))
| AttendeeListArrived (r : option (option (list RawAttendee)))
| DetailsArrived (uid : string) (details : option UserDetails)
| FilterEffect
| SearchChange (value : string)
| ClickLoadMore
| LoadMoreTimer
| ClickCard (i : nat)
| ClickSubmit
| SubmitSettled (r : PostResult)
| DismissError
| DismissSuccess.

(** One event; [None] when the control it needs is not on screen (or is
    disabled).  Answers of the backend and the filter effect may arrive
    at any moment.  A card calls its [onSelect] with the [userId] of the
    member it shows. *)
Definition dispatch (cx : Context) (ev : Event) (st : PageState)
  : option (PageState * list Effect) :=
  match ev with
  | Mount => Some (fetchInitialAttendees_start cx st)
  | EventTitleArrived r => Some (fetchInitialAttendees_title cx r st)
  | AttendeeListArrived r => Some (fetchInitialAttendees_list cx r st)
  | DetailsArrived uid details => Some (detailsSettled uid details st, [])
  | FilterEffect => Some (applyFilter st, [])
  | SearchChange value => Some (handleSearchChange value st, [])
  | ClickLoadMore =>
      if loadMoreRendered st && negb (loadingMore st)
      then Some (handleLoadMore st) else None
  | LoadMoreTimer => Some (setLoadingMore false st, [])
  | ClickCard i =>
      if gridRendered st
      then match nth_error (visibleAttendees st) i with
           | Some a =>
               if selectable a
               then Some (handleMemberSelect (userId a) st, [])
               else Some (st, [])
           | None => None
           end
      else None
  | ClickSubmit =>
      if submitDisabled st then None
      else match handleSubmitTags_start cx st with
           | inl st' => Some (st', [])
           | inr (st', url, body) => Some (st', [HttpPost url body])
           end
  | SubmitSettled r =>
      if submitting st then Some (handleSubmitTags_settled cx r st) else None
  | DismissError => Some (setError None st, [])
  | DismissSuccess => Some (setSuccess None st, [])
  end.

(** A sequence of events from a state, collecting the effects. *)
Fixpoint run (cx : Context) (evs : list Event) (st : PageState)
  : option (PageState * list Effect) :=
  match evs with
  | [] => Some (st, [])
  | ev :: rest =>
      match dispatch cx ev st with
      | Some (st', es) =>
          match run cx rest st' with
          | Some (st'', es') => Some (st'', es ++ es')
          | None => None
          end
      | None => None
      end
  end.

(** [load more] pressed [k] times in a row. *)
Fixpoint loadMoreTimes (k : nat) (st : PageState) : PageState :=
  match k with
  | 0 => st
  | S k' => loadMoreTimes k' (fst (handleLoadMore st))
  end.

(** The selection after a sequence of toggles. *)
Definition toggleAll (uids : list string) (prev : list string) : list string :=
  fold_left (fun sel uid => toggleMember uid sel) uids prev.

(** The detail updates of a run of arrivals, first to last; an arrival
    names the attendee whose fetch settled and brings its result. *)
Definition settleArrivals (arrivals : list (string * option UserDetails))
    (prev : list AttendeeForTagging) : list AttendeeForTagging :=
  fold_left (fun l arrival => applyDetails (fst arrival) (snd arrival) l)
            arrivals prev.

(** The same when every ID is fetched once, so that the result of an
    arrival is a function of its ID. *)
Definition settleAll (get : string -> option UserDetails) (schedule : list string)
    (prev : list AttendeeForTagging) : list AttendeeForTagging :=
  settleArrivals (map (fun uid => (uid, get uid)) schedule) prev.

(** What the last arrival for [uid] brought, if there was one. *)
Fixpoint lastArrival (arrivals : list (string * option UserDetails))
    (uid : string) : option (option UserDetails) :=
  match arrivals with
  | [] => None
  | arrival :: rest =>
      match lastArrival rest uid with
      | Some d => Some d
      | None => if String.eqb (fst arrival) uid then Some (snd arrival) else None
      end
  end.

(** ** The matching rule in words *)

(** A blank string: nothing but white space and line terminators, or
    nothing at all. *)
Definition whitespaceOnly (s : string) : Prop :=
  exists cps,
    (forall cp, In cp cps -> In cp JS.strippedByTrim)
    /\ s = fold_right String.append "" (map JS.utf8 cps).

(** [t] occurs in [s] when the case of letters is ignored. *)
Definition occursIgnoringCase (t s : string) : Prop :=
  exists a b, toLowerCase s = (a ++ toLowerCase t ++ b)%string.

(** An attendee is kept by a search: by its raw ID while its details
    load, by full name or e-mail once they are resolved, by its raw ID
    again when they could not be fetched. *)
Definition keptBySearch (term : string) (a : AttendeeForTagging) : Prop :=
  (isLoadingDetails a = true /\ occursIgnoringCase term (userId a))
  \/ (isLoadingDetails a = false
      /\ exists d, userDetails a = Some d
         /\ (occursIgnoringCase term (firstName d ++ " " ++ lastName d)
             \/ occursIgnoringCase term (email d)))
  \/ (isLoadingDetails a = false /\ userDetails a = None
      /\ occursIgnoringCase term (userId a)).

(** ** An invariant of the visible window *)

(** While a search term is set the window is the first page of the
    filtered list. *)
Definition windowWhileSearching (st : PageState) : Prop :=
  JS.truthy_string (searchTerm st) = true ->
  visibleAttendees st =
  firstn (Nat.min (List.length (filteredAttendees st)) 12) (filteredAttendees st).

(** Every POST among the effects carries a duplicate-free body. *)
Definition postsDuplicateFree (es : list Effect) : Prop :=
  forall url body, In (HttpPost url body) es -> NoDup body.

(** ** Sample data for the examples *)

Definition sampleContext : Context :=
  mkContext (Some "org1") (Some "ev1") (Some "ph1") None None.

Definition contextWithoutOrg : Context :=
  mkContext None (Some "ev1") (Some "ph1") None None.

Definition sampleRaws : list RawAttendee :=
  map (fun s => RawString s)
      ["u01"; "u02"; "u03"; "u04"; "u05"; "u06"; "u07";
       "u08"; "u09"; "u10"; "u11"; "u12"; "u13"; "u14"].

Definition ann : UserDetails := mkUserDetails "u01" "ann@example.com" "Ann" "Lee".

Definition sampleSelection : PageState := setSelectedMembers ["u01"; "u02"] initialState.

Definition sampleSearchSession : list Event :=
  [AttendeeListArrived (Some (Some sampleRaws)); FilterEffect; ClickLoadMore;
   SearchChange "U1"; FilterEffect].

Definition sampleTagSession : list Event :=
  [AttendeeListArrived (Some (Some sampleRaws));
   DetailsArrived "u01" (Some ann); FilterEffect;
   ClickCard 0; ClickSubmit].

Definition sampleResolved : PageState :=
  setSearchTerm "ANN"
    (setAttendees
       [withDetails (Some ann) (makeAttendee sampleContext (RawString "u01"));
        makeAttendee sampleContext (RawString "u02")]
       initialState).

(** The same page with a search term of a space, a no-break space and a
    tab. *)
Definition sampleBlankSearch : PageState :=
  setSearchTerm (" " ++ JS.utf8 160 ++ JS.utf8 9) sampleResolved.

Definition sampleLoaded : PageState :=
  fst (fetchInitialAttendees_list sampleContext (Some (Some sampleRaws)) initialState).

Definition samplePair : PageState :=
  setAttendees
    (initialAttendeeList sampleContext [RawString "u01"; RawString "USER#u02"])
    initialState.

Definition sampleFetch (uid : string) : option UserDetails :=
  if String.eqb uid "u01" then Some ann else None.

(** ** More of what is on screen *)

(** Lines 412-420: the details handed to the card of one attendee, a
    placeholder while they are loading or when they could not be had. *)
Definition cardDetails (a : AttendeeForTagging) : UserDetails :=
  match userDetails a with
  | Some d => d
  | None =>
      mkUserDetails (userId a) (userId a ++ "@unknown.com")
        (if isLoadingDetails a then "Loading..." else "Attendee")
        (if isLoadingDetails a then "" else "User")
  end.

(** Lines 425-427: [selectedMembers.includes(attendee.userId)]. *)
Definition cardSelected (st : PageState) (a : AttendeeForTagging) : bool :=
  arrayIncludes (selectedMembers st) (userId a).

(** ** Shapes kept by the page *)

(** An entry as the loader builds it and enrichment leaves it. *)
Definition wellFormedEntry (a : AttendeeForTagging) : Prop :=
  userId a <> ""
  /\ PK a = ("USER#" ++ userId a)%string
  /\ role a = "MEMBER"
  /\ (isLoadingDetails a = true -> userDetails a = None).

Definition isSubmitSettled (ev : Event) : bool :=
  match ev with SubmitSettled _ => true | _ => false end.

Definition countPosts (es : list Effect) : nat := List.length (filter isPost es).

Definition countSettled (evs : list Event) : nat :=
  List.length (filter isSubmitSettled evs).

Definition pendingPosts (st : PageState) : nat := if submitting st then 1 else 0.

(** Both lists hold well-formed entries and no selected ID is empty. *)
Definition pageShape (st : PageState) : Prop :=
  (forall a, In a (attendees st) -> wellFormedEntry a)
  /\ (forall a, In a (filteredAttendees st) -> wellFormedEntry a)
  /\ ~ In "" (selectedMembers st).

(** Every POST among the effects carries at least one ID and no empty one. *)
Definition postsCarryIds (es : list Effect) : Prop :=
  forall url body, In (HttpPost url body) es -> body <> [] /\ ~ In "" body.

(** ** More sample data *)

Definition contextOfAnn : Context :=
  mkContext (Some "org1") (Some "ev1") (Some "ph1") (Some ann) (Some "tok").

Definition answerBob (url : string) : UserResponse :=
  if String.eqb url "/users/u02"
  then UserOk (Some (mkUserData None (Some "Bob") (Some "Ray")))
  else UserFailed.

(** * Properties *)

(** Reads a cell through the setters applied since. *)
Ltac project :=
  cbn [searchTerm attendees filteredAttendees loading error success
       selectedMembers submitting eventName displayCount hasMore loadingMore
       setSearchTerm setAttendees setFilteredAttendees setLoading setError
       setSuccess setSelectedMembers setSubmitting setEventName
       setDisplayCount setHasMore setLoadingMore fst snd].

(** Closes a goal about the POSTs of an effect list that holds none. *)
Ltac no_post :=
  let url := fresh in let body := fresh in let H := fresh in
  intros url body H; simpl in H;
  repeat (destruct H as [H|H]; [discriminate H|]); exact (False_ind _ H).

(** ** Strings *)

Section StringFacts.

Example split_three : JS.split hash "a#b#c" = ["a"; "b"; "c"].
Proof. reflexivity. Qed.

Example split_empty : JS.split hash "" = [""].
Proof. reflexivity. Qed.

Example split_trailing : JS.split hash "USER#" = ["USER"; ""].
Proof. reflexivity. Qed.

Example includes_inner : JS.includes "hello" "ell" = true.
Proof. reflexivity. Qed.

Example includes_empty : JS.includes "abc" "" = true.
Proof. reflexivity. Qed.

Example includes_longer : JS.includes "ab" "abc" = false.
Proof. reflexivity. Qed.

Example toLowerCase_mixed : JS.toLowerCaseAscii "Ann LEE-42" = "ann lee-42".
Proof. reflexivity. Qed.

Example trim_both_ends :
  JS.trim (String " " (String "009" ("a b" ++ String "010" " "))) = "a b".
Proof. reflexivity. Qed.

Lemma prefix_spec (t s : string) :
  String.prefix t s = true <-> exists b, s = (t ++ b)%string.
Proof.
  revert t; induction s as [|d s IH]; intros [|c t]; simpl.
  - split; [intros _; now exists "" | reflexivity].
  - split; [discriminate | intros [b Hb]; discriminate].
  - split; [intros _; now exists (String d s) | reflexivity].
  - destruct (ascii_dec c d) as [->|Hne].
    + rewrite IH; split; intros [b Hb]; exists b.
      * now rewrite Hb.
      * now injection Hb.
    + split; [discriminate | intros [b Hb]; injection Hb; congruence].
Qed.

(** [includes] is the substring test. *)
Lemma includes_spec (s t : string) :
  JS.includes s t = true <-> exists a b, s = (a ++ t ++ b)%string.
Proof.
  induction s as [|c s IH]; cbn [JS.includes].
  - rewrite prefix_spec; split.
    + intros [b Hb]; exists "", b; exact Hb.
    + intros [a [b Hab]]; destruct a; [now exists b | discriminate].
  - rewrite orb_true_iff, prefix_spec, IH; split.
    + intros [[b Hb] | [a [b Hab]]].
      * exists "", b; exact Hb.
      * exists (String c a), b; simpl; now rewrite Hab.
    + intros [a [b Hab]]; destruct a as [|d a]; simpl in Hab.
      * left; now exists b.
      * right; exists a, b; now injection Hab.
Qed.

Lemma includes_char (c : ascii) (s : string) :
  JS.includes s (String c "") = negb (JS.count_char c s =? 0)%nat.
Proof.
  induction s as [|d s IH]; simpl; [reflexivity|].
  destruct (ascii_dec c d) as [->|Hne].
  - rewrite Ascii.eqb_refl; simpl; destruct s; reflexivity.
  - destruct (Ascii.eqb_spec d c) as [->|_]; [congruence|]; simpl; exact IH.
Qed.

Lemma split_not_nil (c : ascii) (s : string) : JS.split c s <> [].
Proof.
  destruct s as [|d s]; simpl; [discriminate|].
  destruct (Ascii.eqb d c); [discriminate|].
  destruct (JS.split c s); discriminate.
Qed.

Lemma split_no_separator (c : ascii) (s : string) :
  JS.count_char c s = 0 -> JS.split c s = [s].
Proof.
  induction s as [|d s IH]; simpl; [reflexivity|].
  destruct (Ascii.eqb d c); simpl; [discriminate|].
  intros H; now rewrite (IH H).
Qed.

Lemma split_at_first (c : ascii) (p r : string) :
  JS.count_char c p = 0 ->
  JS.split c (p ++ String c r) = p :: JS.split c r.
Proof.
  induction p as [|d p IH]; simpl.
  - intros _; now rewrite Ascii.eqb_refl.
  - destruct (Ascii.eqb d c); simpl; [discriminate|].
    intros H; now rewrite (IH H).
Qed.

Lemma count_char_app (c : ascii) (a b : string) :
  JS.count_char c (a ++ b) = JS.count_char c a + JS.count_char c b.
Proof.
  induction a as [|d a IH]; simpl; [reflexivity|]; rewrite IH; lia.
Qed.

Example trim_no_break_space :
  JS.trim (JS.utf8 160 ++ "a" ++ JS.utf8 12288 ++ JS.utf8 65279) = "a".
Proof. reflexivity. Qed.

Example trim_keeps_inner_and_other_bytes :
  JS.trim (" " ++ JS.utf8 233 ++ JS.utf8 8203 ++ JS.utf8 133 ++ " ")
  = (JS.utf8 233 ++ JS.utf8 8203 ++ JS.utf8 133)%string.
Proof. reflexivity. Qed.

(** Picks the disjunct that holds by computation. *)
Ltac pick := repeat (first [left; reflexivity | right]).

Lemma code_inj (c : ascii) (n : N) : JS.code c = n -> c = ascii_of_N n.
Proof. intros <-; unfold JS.code; now rewrite ascii_N_embedding. Qed.

Lemma white1_code (c : ascii) :
  JS.white1 c = true ->
  exists cp, In cp JS.strippedByTrim /\ JS.utf8 cp = String c "".
Proof.
  intros H; exists (JS.code c); revert H.
  destruct c as [[] [] [] [] [] [] [] []]; intros H; vm_compute in H;
    try discriminate H; (split; [vm_compute; pick | reflexivity]).
Qed.

Lemma white2_code (c1 c2 : ascii) :
  JS.white2 c1 c2 = true ->
  exists cp, In cp JS.strippedByTrim /\ JS.utf8 cp = String c1 (String c2 "").
Proof.
  unfold JS.white2; intros H; apply andb_true_iff in H; destruct H as [H1 H2].
  apply N.eqb_eq, code_inj in H1; apply N.eqb_eq, code_inj in H2; subst.
  exists 160%N; split; [vm_compute; pick | reflexivity].
Qed.

Lemma white3_code (c1 c2 c3 : ascii) :
  JS.white3 c1 c2 c3 = true ->
  exists cp, In cp JS.strippedByTrim
             /\ JS.utf8 cp = String c1 (String c2 (String c3 "")).
Proof.
  unfold JS.white3; cbv zeta; intros H.
  exists ((JS.code c1 - 224) * 4096 + (JS.code c2 - 128) * 64 + (JS.code c3 - 128))%N.
  repeat match goal with
         | H : (_ && _)%bool = true |- _ =>
             apply andb_true_iff in H; destruct H
         | H : (_ || _)%bool = true |- _ =>
             apply orb_true_iff in H; destruct H
         | H : (_ =? _)%N = true |- _ =>
             apply N.eqb_eq, code_inj in H; subst
         end;
    lazymatch goal with
    | H1 : (_ <=? _)%N = true, H2 : (_ <=? _)%N = true |- _ =>
        destruct c3 as [[] [] [] [] [] [] [] []];
        vm_compute in H1; vm_compute in H2;
        try discriminate H1; try discriminate H2;
        (split; [vm_compute; pick | reflexivity])
    | _ => split; [vm_compute; pick | reflexivity]
    end.
Qed.

Lemma dropWhite_Some (s r : string) :
  JS.dropWhite s = Some r ->
  exists cp, In cp JS.strippedByTrim /\ s = (JS.utf8 cp ++ r)%string.
Proof.
  destruct s as [|c1 r1]; [discriminate|]; cbn [JS.dropWhite].
  destruct (JS.white1 c1) eqn:E1.
  { intros H; injection H as <-; destruct (white1_code c1 E1) as [cp [Hin Hcp]].
    exists cp; split; [exact Hin | now rewrite Hcp]. }
  destruct r1 as [|c2 r2]; [discriminate|].
  destruct (JS.white2 c1 c2) eqn:E2.
  { intros H; injection H as <-; destruct (white2_code c1 c2 E2) as [cp [Hin Hcp]].
    exists cp; split; [exact Hin | now rewrite Hcp]. }
  destruct r2 as [|c3 r3]; [discriminate|].
  destruct (JS.white3 c1 c2 c3) eqn:E3; [|discriminate].
  intros H; injection H as <-; destruct (white3_code c1 c2 c3 E3) as [cp [Hin Hcp]].
  exists cp; split; [exact Hin | now rewrite Hcp].
Qed.

Lemma dropWhite_stripped (cp : N) (r : string) :
  In cp JS.strippedByTrim -> JS.dropWhite (JS.utf8 cp ++ r) = Some r.
Proof.
  unfold JS.strippedByTrim, JS.whiteSpace, JS.lineTerminators; simpl In.
  intros H; repeat (destruct H as [<-|H]; [reflexivity|]); destruct H.
Qed.

Lemma trimStart_unfold (s : string) :
  JS.trimStart s =
  match s with
  | String c1 r1 =>
      if JS.white1 c1 then JS.trimStart r1
      else match r1 with
           | String c2 r2 =>
               if JS.white2 c1 c2 then JS.trimStart r2
               else match r2 with
                    | String c3 r3 =>
                        if JS.white3 c1 c2 c3 then JS.trimStart r3 else s
                    | EmptyString => s
                    end
           | EmptyString => s
           end
  | EmptyString => EmptyString
  end.
Proof. destruct s; reflexivity. Qed.

Lemma trimStart_step (s : string) :
  JS.trimStart s =
  match JS.dropWhite s with
  | Some r => JS.trimStart r
  | None => s
  end.
Proof.
  rewrite (trimStart_unfold s); unfold JS.dropWhite.
  destruct s as [|c1 [|c2 [|c3 r3]]]; try reflexivity;
    repeat match goal with
           | |- context [if ?b then _ else _] => destruct b
           end; reflexivity.
Qed.

Lemma dropWhite_shorter (s r : string) :
  JS.dropWhite s = Some r -> String.length r < String.length s.
Proof.
  unfold JS.dropWhite.
  destruct s as [|c1 [|c2 [|c3 r3]]];
    repeat match goal with
           | |- context [if ?b then _ else _] => destruct b
           end;
    intros H; try discriminate H; injection H as <-; simpl; lia.
Qed.

Lemma whitespaceOnly_empty : whitespaceOnly "".
Proof. exists []; split; [intros cp []|reflexivity]. Qed.

Lemma whitespaceOnly_more (cp : N) (s : string) :
  In cp JS.strippedByTrim -> whitespaceOnly s -> whitespaceOnly (JS.utf8 cp ++ s).
Proof.
  intros Hcp [cps [Hall ->]]; exists (cp :: cps); split; [|reflexivity].
  intros x [<-|Hx]; [exact Hcp | now apply Hall].
Qed.

(** [trimStart] leaves nothing exactly of a blank string. *)
Lemma trimStart_blank (s : string) :
  JS.trimStart s = "" <-> whitespaceOnly s.
Proof.
  split.
  - remember (String.length s) as n eqn:Hn; revert s Hn.
    induction n as [n IH] using lt_wf_ind; intros s Hn H.
    rewrite trimStart_step in H.
    destruct (JS.dropWhite s) as [r|] eqn:Hd.
    + destruct (dropWhite_Some s r Hd) as [cp [Hcp Hs]].
      pose proof (dropWhite_shorter s r Hd) as Hlt.
      rewrite Hs; apply whitespaceOnly_more; [exact Hcp|].
      apply (IH (String.length r)); [lia | reflexivity | exact H].
    + subst s; apply whitespaceOnly_empty.
  - intros [cps [Hall ->]]; induction cps as [|cp cps IH]; [reflexivity|].
    cbn [map fold_right]; rewrite trimStart_step, dropWhite_stripped.
    + apply IH; intros x Hx; apply Hall; now right.
    + apply Hall; now left.
Qed.

Lemma trimStart_twice (s : string) :
  JS.trimStart (JS.trimStart s) = JS.trimStart s.
Proof.
  remember (String.length s) as n eqn:Hn; revert s Hn.
  induction n as [n IH] using lt_wf_ind; intros s Hn.
  rewrite (trimStart_step s).
  destruct (JS.dropWhite s) as [r|] eqn:Hd.
  - apply (IH (String.length r)); [|reflexivity].
    pose proof (dropWhite_shorter s r Hd); lia.
  - now rewrite trimStart_step, Hd.
Qed.

Lemma trimEnd_empty (s : string) :
  JS.trimEnd s = "" <-> JS.trimStart s = "".
Proof.
  destruct s as [|c r]; [split; reflexivity|].
  change (JS.trimEnd (String c r))
    with (if String.eqb (JS.trimStart (String c r)) ""
          then "" else String c (JS.trimEnd r)).
  destruct (String.eqb_spec (JS.trimStart (String c r)) "") as [E|E];
    split; try reflexivity; try discriminate; intros H; congruence.
Qed.

(** [trim] leaves nothing exactly of a blank string. *)
Lemma trim_blank (s : string) : JS.trim s = "" <-> whitespaceOnly s.
Proof.
  unfold JS.trim; now rewrite trimEnd_empty, trimStart_twice, trimStart_blank.
Qed.

Lemma truthy_string_true (s : string) : JS.truthy_string s = true <-> s <> "".
Proof.
  unfold JS.truthy_string; rewrite negb_true_iff; apply String.eqb_neq.
Qed.

Lemma truthy_string_false (s : string) : JS.truthy_string s = false <-> s = "".
Proof.
  unfold JS.truthy_string; rewrite negb_false_iff; apply String.eqb_eq.
Qed.

End StringFacts.

(** ** Attendee loader: normalization and the list built from it *)

Section Normalization.

Variable cx : Context.

Lemma normalize_plain (s : string) :
  JS.count_char hash s = 0 -> normalizeUserId (RawString s) = s.
Proof.
  intros H; unfold normalizeUserId.
  change "#" with (String hash ""); rewrite includes_char, H; reflexivity.
Qed.

(** With a separator in the string, the ID is the second piece of the
    split: what stands between the first separator and the next one. *)
Lemma normalize_prefixed (p r : string) :
  JS.count_char hash p = 0 ->
  normalizeUserId (RawString (p ++ String hash r)) = hd "" (JS.split hash r).
Proof.
  intros H; unfold normalizeUserId.
  change "#" with (String hash ""); rewrite includes_char, count_char_app.
  simpl JS.count_char; rewrite Nat.add_succ_r; simpl negb.
  rewrite split_at_first by exact H; unfold JS.at_index; simpl.
  pose proof (split_not_nil hash r); destruct (JS.split hash r); [congruence|reflexivity].
Qed.

Lemma initialAttendeeList_map (raws : list RawAttendee) :
  initialAttendeeList cx raws =
  map (makeAttendee cx)
      (filter (fun r => JS.truthy_string (normalizeUserId r)) raws).
Proof.
  unfold initialAttendeeList; induction raws as [|r raws IH]; simpl; [reflexivity|].
  destruct (JS.truthy_string (normalizeUserId r)); simpl; now rewrite IH.
Qed.

Lemma initialAttendeeList_ids (raws : list RawAttendee) :
  map userId (initialAttendeeList cx raws) =
  filter JS.truthy_string (map normalizeUserId raws).
Proof.
  unfold initialAttendeeList; induction raws as [|r raws IH]; simpl; [reflexivity|].
  destruct (JS.truthy_string (normalizeUserId r)); simpl; now rewrite IH.
Qed.

Lemma count_occ_filter_truthy (l : list string) (uid : string) :
  uid <> "" ->
  count_occ string_dec (filter JS.truthy_string l) uid = count_occ string_dec l uid.
Proof.
  intros Hne; induction l as [|x l IH]; simpl; [reflexivity|].
  destruct (JS.truthy_string x) eqn:E; simpl.
  - now rewrite IH.
  - apply truthy_string_false in E; subst x.
    destruct (string_dec "" uid); [congruence | exact IH].
Qed.

End Normalization.

(** C4, as the code has it.  A string without ['#'] is its own ID.  A
    string with a separator maps to the text between its first separator
    and the next one (or the end of the string): for one separator this
    is the suffix after it, with more separators the rest is cut off.
    An object maps to its [userId] field, the empty string when the
    field is absent; anything else maps to the empty string.  The list
    built is the image of the raw entries whose ID is not empty. *)
Theorem normalization_by_shape (cx : Context) (p m t : string)
    (f : option string) (raws : list RawAttendee)
    (Hp : JS.count_char hash p = 0) (Hm : JS.count_char hash m = 0) :
  normalizeUserId (RawString p) = p
  /\ normalizeUserId (RawString (p ++ "#" ++ m)) = m
  /\ normalizeUserId (RawString (p ++ "#" ++ m ++ "#" ++ t)) = m
  /\ normalizeUserId (RawObject f) = match f with Some u => u | None => "" end
  /\ normalizeUserId RawOther = ""
  /\ initialAttendeeList cx raws =
     map (makeAttendee cx)
         (filter (fun r => negb (String.eqb (normalizeUserId r) "")) raws).
Proof.
  repeat split.
  - now apply normalize_plain.
  - change ("#" ++ m)%string with (String hash m).
    rewrite normalize_prefixed by exact Hp.
    now rewrite split_no_separator.
  - change ("#" ++ m ++ "#" ++ t)%string with (String hash (m ++ String hash t)).
    rewrite normalize_prefixed by exact Hp.
    now rewrite split_at_first.
  - destruct f as [u|]; simpl; [|reflexivity].
    destruct (JS.truthy_string u) eqn:E; [reflexivity|].
    now apply truthy_string_false in E.
  - apply initialAttendeeList_map.
Qed.

Lemma normalization_by_shape_witness :
  JS.count_char hash "USER" = 0 /\ JS.count_char hash "u1" = 0
  /\ normalizeUserId (RawString "USER#u1") = "u1"
  /\ normalizeUserId (RawString "USER#u1#x") = "u1"
  /\ normalizeUserId (RawObject (Some "u2")) = "u2".
Proof.
  split; [reflexivity|]; split; [reflexivity|].
  pose proof (@normalization_by_shape
                (mkContext (Some "o") (Some "e") (Some "p") None None)
                "USER" "u1" "x" (Some "u2") [] eq_refl eq_refl) as H.
  destruct H as (_ & H1 & H2 & H3 & _).
  exact (conj H1 (conj H2 H3)).
Defined.

(** C4 as worded fails on a string with two separators: the ID is the
    middle piece, which is the suffix after neither separator. *)
Lemma normalize_two_separators_counterexample :
  normalizeUserId (RawString "A#b#c") = "b"
  /\ normalizeUserId (RawString "A#b#c") <> "b#c"
  /\ normalizeUserId (RawString "A#b#c") <> "c".
Proof.
  split; [reflexivity | split; intros H; vm_compute in H; discriminate H].
Qed.

(** C5, as the code has it.  The list holds one entry per raw entry
    whose normalized ID is not empty, in the order of the raw list: no
    entry has an empty [userId], an ID occurs as often as among the raw
    entries, and the list is duplicate-free when the raw IDs are. *)
Theorem attendee_list_keeps_every_nonempty_id (cx : Context)
    (raws : list RawAttendee) (uid : string) (Huid : uid <> "") :
  map userId (initialAttendeeList cx raws) =
    filter JS.truthy_string (map normalizeUserId raws)
  /\ ~ In "" (map userId (initialAttendeeList cx raws))
  /\ count_occ string_dec (map userId (initialAttendeeList cx raws)) uid =
     count_occ string_dec (map normalizeUserId raws) uid
  /\ (NoDup (filter JS.truthy_string (map normalizeUserId raws)) ->
      NoDup (map userId (initialAttendeeList cx raws))).
Proof.
  rewrite initialAttendeeList_ids; repeat split.
  - intros H; apply filter_In in H; destruct H as [_ H]; discriminate.
  - now apply count_occ_filter_truthy.
  - trivial.
Qed.

Lemma attendee_list_keeps_every_nonempty_id_witness :
  "u1" <> ""
  /\ map userId
       (initialAttendeeList (mkContext (Some "o") (Some "e") (Some "p") None None)
          [RawString "USER#u1"; RawObject None; RawObject (Some "u2")])
     = ["u1"; "u2"]
  /\ NoDup (map userId
       (initialAttendeeList (mkContext (Some "o") (Some "e") (Some "p") None None)
          [RawString "USER#u1"; RawObject None; RawObject (Some "u2")])).
Proof.
  assert (Hne : "u1" <> "") by discriminate.
  split; [exact Hne|].
  pose proof (@attendee_list_keeps_every_nonempty_id
                (mkContext (Some "o") (Some "e") (Some "p") None None)
                [RawString "USER#u1"; RawObject None; RawObject (Some "u2")]
                "u1" Hne) as H.
  destruct H as (H1 & _ & _ & H4).
  split; [exact H1|].
  apply H4; simpl.
  repeat constructor; simpl; intuition discriminate.
Defined.

(** C5 as worded fails: the same ID sent twice gives two entries. *)
Lemma duplicate_raw_ids_counterexample :
  map userId
    (initialAttendeeList (mkContext (Some "o") (Some "e") (Some "p") None None)
       [RawString "u1"; RawString "USER#u1"])
  = ["u1"; "u1"]
  /\ ~ NoDup (map userId
       (initialAttendeeList (mkContext (Some "o") (Some "e") (Some "p") None None)
          [RawString "u1"; RawString "USER#u1"])).
Proof.
  split; [reflexivity|].
  intros H; inversion H as [|x l Hin _]; subst; apply Hin; left; reflexivity.
Qed.

(** ** Filter *)

Lemma includes_lower (s t : string) :
  JS.includes (toLowerCase s) (toLowerCase t) = true
  <-> occursIgnoringCase t s.
Proof. apply includes_spec. Qed.

Lemma matchesSearch_spec (term : string) (a : AttendeeForTagging) :
  matchesSearch (toLowerCase term) a = true <-> keptBySearch term a.
Proof.
  unfold matchesSearch, keptBySearch.
  destruct (isLoadingDetails a) eqn:Hl.
  - rewrite includes_lower; split.
    + intros H; left; now split.
    + intros [[_ H] | [[H _] | [H _]]]; [exact H | discriminate | discriminate].
  - destruct (userDetails a) as [d|] eqn:Hd.
    + rewrite orb_true_iff, !includes_lower; split.
      * intros H; right; left; split; [reflexivity|]; now exists d.
      * intros [[H _] | [[_ [d' [Hd' H]]] | [_ [H _]]]];
          [discriminate | | discriminate].
        injection Hd' as <-; exact H.
    + rewrite includes_lower; split.
      * intros H; right; right; now repeat split.
      * intros [[H _] | [[_ [d' [Hd' _]]] | [_ [_ H]]]];
          [discriminate | discriminate | exact H].
Qed.

Lemma filterAttendees_cases (term : string) (l : list AttendeeForTagging) :
  filterAttendees term l =
  if String.eqb (JS.trim term) ""
  then l
  else filter (matchesSearch (toLowerCase term)) l.
Proof.
  unfold filterAttendees; now destruct (String.eqb (JS.trim term) "").
Qed.

Lemma filterAttendees_blank (term : string) (l : list AttendeeForTagging) :
  whitespaceOnly term -> filterAttendees term l = l.
Proof.
  intros H; apply trim_blank in H.
  now rewrite filterAttendees_cases, H.
Qed.

Lemma filterAttendees_search (term : string) (l : list AttendeeForTagging) :
  ~ whitespaceOnly term ->
  filterAttendees term l = filter (matchesSearch (toLowerCase term)) l.
Proof.
  intros H; rewrite filterAttendees_cases.
  destruct (String.eqb_spec (JS.trim term) "") as [E|_]; [|reflexivity].
  exfalso; apply H, trim_blank, E.
Qed.

(** C6.  [applyFilter] stores the list [filterAttendees] computes.  The
    term counts as blank when [trim] leaves nothing of it, which is
    when it is empty or made of white space only; for a blank term the
    list is the full list.  For any other term it is the full list
    filtered, in order, by a test that holds exactly when the term,
    case ignored, occurs in the raw ID of an attendee still loading, in
    the full name or the e-mail of a resolved one, or in the raw ID of
    one whose details are null.  Case is ignored by [toLowerCase],
    whatever table it folds by. *)
Theorem filter_by_search_term (st : PageState) :
  filteredAttendees (applyFilter st) = filterAttendees (searchTerm st) (attendees st)
  /\ (JS.trim (searchTerm st) = "" <-> whitespaceOnly (searchTerm st))
  /\ (whitespaceOnly (searchTerm st) ->
      filterAttendees (searchTerm st) (attendees st) = attendees st)
  /\ (~ whitespaceOnly (searchTerm st) ->
      filterAttendees (searchTerm st) (attendees st) =
        filter (matchesSearch (toLowerCase (searchTerm st))) (attendees st)
      /\ (forall a, matchesSearch (toLowerCase (searchTerm st)) a = true
                    <-> keptBySearch (searchTerm st) a)
      /\ (forall a, In a (filterAttendees (searchTerm st) (attendees st))
                    <-> In a (attendees st) /\ keptBySearch (searchTerm st) a)).
Proof.
  split; [reflexivity|]; split; [apply trim_blank|]; split.
  - apply filterAttendees_blank.
  - intros Hn; rewrite (filterAttendees_search _ _ Hn).
    split; [reflexivity|]; split.
    + intros a; apply matchesSearch_spec.
    + intros a; rewrite filter_In, matchesSearch_spec; reflexivity.
Qed.

(** ** Pager *)

Lemma firstn_min_length (A : Type) (n : nat) (l : list A) :
  firstn n l = firstn (Nat.min n (List.length l)) l.
Proof.
  destruct (Nat.le_ge_cases n (List.length l)) as [H|H].
  - now rewrite Nat.min_l.
  - rewrite Nat.min_r by exact H. now rewrite firstn_all, firstn_all2.
Qed.

Lemma handleLoadMore_filtered (s : PageState) :
  filteredAttendees (fst (handleLoadMore s)) = filteredAttendees s.
Proof. reflexivity. Qed.

Lemma handleLoadMore_count (s : PageState) :
  displayCount (fst (handleLoadMore s)) =
  Nat.min (displayCount s + initialDisplayCount) (List.length (filteredAttendees s)).
Proof. reflexivity. Qed.

Lemma loadMoreTimes_filtered (k : nat) (s : PageState) :
  filteredAttendees (loadMoreTimes k s) = filteredAttendees s.
Proof.
  revert s; induction k as [|k IH]; intros s; [reflexivity|].
  change (loadMoreTimes (S k) s) with (loadMoreTimes k (fst (handleLoadMore s))).
  now rewrite IH.
Qed.

Lemma loadMoreTimes_window (k : nat) (s : PageState) :
  Nat.min (displayCount (loadMoreTimes k s)) (List.length (filteredAttendees s)) =
  Nat.min (displayCount s + 12 * k) (List.length (filteredAttendees s)).
Proof.
  revert s; induction k as [|k IH]; intros s.
  - simpl loadMoreTimes; f_equal; lia.
  - change (loadMoreTimes (S k) s) with (loadMoreTimes k (fst (handleLoadMore s))).
    specialize (IH (fst (handleLoadMore s))).
    rewrite handleLoadMore_filtered, handleLoadMore_count in IH.
    unfold initialDisplayCount in IH. lia.
Qed.

Lemma loadMoreTimes_hasMore (k : nat) (s : PageState) :
  hasMore (loadMoreTimes (S k) s) =
  (displayCount s + 12 * S k <? List.length (filteredAttendees s))%nat.
Proof.
  revert s; induction k as [|k IH]; intros s.
  - simpl loadMoreTimes. unfold handleLoadMore, initialDisplayCount; simpl fst.
    simpl hasMore.
    destruct (Nat.ltb_spec (Nat.min (displayCount s + 12) (List.length (filteredAttendees s)))
                (List.length (filteredAttendees s)));
    destruct (Nat.ltb_spec (displayCount s + 12 * 1) (List.length (filteredAttendees s)));
    try reflexivity; lia.
  - change (loadMoreTimes (S (S k)) s) with (loadMoreTimes (S k) (fst (handleLoadMore s))).
    rewrite IH, handleLoadMore_filtered, handleLoadMore_count.
    unfold initialDisplayCount.
    destruct (Nat.ltb_spec
                (Nat.min (displayCount s + 12) (List.length (filteredAttendees s)) + 12 * S k)
                (List.length (filteredAttendees s)));
    destruct (Nat.ltb_spec (displayCount s + 12 * S (S k)) (List.length (filteredAttendees s)));
    try reflexivity; lia.
Qed.

Lemma loaded_list (cx : Context) (raws : list RawAttendee) (st : PageState) :
  let st0 := fst (fetchInitialAttendees_list cx (Some (Some raws)) st) in
  attendees st0 = initialAttendeeList cx raws
  /\ filteredAttendees st0 = initialAttendeeList cx raws
  /\ hasMore st0 = (12 <? List.length (initialAttendeeList cx raws))%nat
  /\ Nat.min (displayCount st0) (List.length (initialAttendeeList cx raws)) =
     Nat.min (List.length (initialAttendeeList cx raws)) 12.
Proof.
  destruct raws as [|r raws]; simpl.
  - repeat split. now rewrite Nat.min_0_r.
  - repeat split. unfold initialDisplayCount. lia.
Qed.

(** C7.  Once the attendee list has arrived, with [N] entries, the
    visible window is the first [min N 12] of them and [hasMore] is
    [12 < N].  One load-more sets [displayCount] to the old count plus
    12, capped at the length of the filtered list, adds exactly 12 when
    the list has that many left, and sets [hasMore] to false exactly
    when the count has reached that length.  After [k] presses the
    window is the first [min (12 (k+1)) N] entries. *)
Theorem pagination_window (cx : Context) (raws : list RawAttendee)
    (st s : PageState) (k : nat) :
  let st0 := fst (fetchInitialAttendees_list cx (Some (Some raws)) st) in
  let N := List.length (attendees st0) in
  let s' := fst (handleLoadMore s) in
  visibleAttendees st0 = firstn (Nat.min N 12) (attendees st0)
  /\ List.length (visibleAttendees st0) = Nat.min N 12
  /\ hasMore st0 = (12 <? N)%nat
  /\ displayCount s' =
     Nat.min (displayCount s + 12) (List.length (filteredAttendees s))
  /\ filteredAttendees s' = filteredAttendees s
  /\ (displayCount s + 12 <= List.length (filteredAttendees s) ->
      displayCount s' = displayCount s + 12)
  /\ (hasMore s' = false <-> displayCount s' = List.length (filteredAttendees s'))
  /\ visibleAttendees (loadMoreTimes k st0) =
     firstn (Nat.min (12 * (k + 1)) N) (attendees st0)
  /\ hasMore (loadMoreTimes k st0) = (12 * (k + 1) <? N)%nat.
Proof.
  intros st0 N s'; subst s'.
  destruct (loaded_list cx raws st) as (Ha & Hf & Hh & Hd).
  fold st0 in Ha, Hf, Hh, Hd.
  assert (HN : N = List.length (initialAttendeeList cx raws))
    by (unfold N; now rewrite Ha).
  rewrite <- HN in Hh, Hd.
  assert (Hv : visibleAttendees st0 = firstn (Nat.min N 12) (attendees st0)).
  { unfold visibleAttendees. rewrite Hf, <- Ha, firstn_min_length.
    fold N. now rewrite Hd. }
  split; [exact Hv|].
  split; [rewrite Hv, length_firstn; fold N; lia|].
  split; [exact Hh|].
  split; [reflexivity|].
  split; [reflexivity|].
  split; [intros H; rewrite handleLoadMore_count; unfold initialDisplayCount; lia|].
  split.
  { rewrite handleLoadMore_filtered, handleLoadMore_count.
    unfold handleLoadMore, initialDisplayCount; simpl hasMore.
    rewrite Nat.ltb_ge. lia. }
  assert (Hlen : List.length (filteredAttendees st0) = N)
    by (rewrite Hf; symmetry; exact HN).
  split.
  - unfold visibleAttendees.
    rewrite loadMoreTimes_filtered, firstn_min_length, loadMoreTimes_window.
    rewrite Hlen, Hf, <- Ha. f_equal. lia.
  - destruct k as [|k]; [simpl; exact Hh|].
    rewrite loadMoreTimes_hasMore, Hlen.
    destruct (Nat.ltb_spec (displayCount st0 + 12 * S k) N);
    destruct (Nat.ltb_spec (12 * (S k + 1)) N); try reflexivity; lia.
Qed.

(** ** Detail enrichment *)

Section Enrichment.

Lemma withDetails_userId (d : option UserDetails) (a : AttendeeForTagging) :
  userId (withDetails d a) = userId a.
Proof. reflexivity. Qed.

Lemma withDetails_twice (d d' : option UserDetails) (a : AttendeeForTagging) :
  withDetails d (withDetails d' a) = withDetails d a.
Proof. reflexivity. Qed.

Lemma applyDetails_nth (uid : string) (d : option UserDetails)
    (l : list AttendeeForTagging) (i : nat) (a : AttendeeForTagging) :
  nth_error l i = Some a ->
  nth_error (applyDetails uid d l) i =
  Some (if String.eqb (userId a) uid then withDetails d a else a).
Proof.
  intros H; unfold applyDetails; rewrite nth_error_map, H; reflexivity.
Qed.

Lemma unique_ids_index (l : list AttendeeForTagging) (i j : nat)
    (a b : AttendeeForTagging) :
  NoDup (map userId l) ->
  nth_error l i = Some a -> nth_error l j = Some b ->
  userId a = userId b -> i = j.
Proof.
  intros HND Hi Hj Hab.
  rewrite NoDup_nth_error in HND; apply HND.
  - rewrite length_map; apply nth_error_Some; congruence.
  - rewrite !nth_error_map, Hi, Hj; simpl; now rewrite Hab.
Qed.

Lemma settleAll_cons (get : string -> option UserDetails) (u : string)
    (s : list string) (l : list AttendeeForTagging) :
  settleAll get (u :: s) l = settleAll get s (applyDetails u (get u) l).
Proof. reflexivity. Qed.

(** After any run of arrivals an entry is either untouched or carries
    the result of its own fetch. *)
Lemma settleAll_nth (get : string -> option UserDetails) (s : list string) :
  forall (l : list AttendeeForTagging) (i : nat) (a : AttendeeForTagging),
  nth_error l i = Some a ->
  nth_error (settleAll get s l) i =
  Some (if arrayIncludes s (userId a) then withDetails (get (userId a)) a else a).
Proof.
  induction s as [|u s IH]; intros l i a H; [exact H|].
  rewrite settleAll_cons.
  rewrite (IH _ i _ (applyDetails_nth u (get u) l i a H)).
  unfold arrayIncludes; simpl existsb.
  destruct (String.eqb_spec (userId a) u) as [He|Hne]; simpl orb; cbv iota.
  - rewrite withDetails_userId, withDetails_twice, He.
    destruct (existsb (String.eqb u) s); reflexivity.
  - reflexivity.
Qed.

Lemma arrayIncludes_In (s : list string) (u : string) :
  arrayIncludes s u = true <-> In u s.
Proof.
  unfold arrayIncludes; rewrite existsb_exists; split.
  - intros [x [Hx He]]; apply String.eqb_eq in He; now subst.
  - intros H; exists u; split; [exact H | apply String.eqb_refl].
Qed.

End Enrichment.

(** C8.  In a list with unique [userId]s, the update made when the
    fetch for attendee [a] (at index [i]) settles with result [d] puts
    [d] in that entry and clears its loading flag, and leaves the entry
    at every other index as it was; the other cells of the page state
    keep their values.  When each attendee's fetch settles once, in any
    order, every attendee is named by exactly one arrival, after any
    part of the arrivals an entry is untouched or holds its own result,
    and at the end every entry holds its own result with the loading
    flag cleared.  The arrivals are those of the fetches [forEach]
    starts, one per entry, in any order. *)
Theorem details_update_touches_one_entry (st : PageState)
    (get : string -> option UserDetails) (schedule : list string)
    (HND : NoDup (map userId (attendees st)))
    (Hperm : Permutation schedule (fetchesStarted (attendees st))) :
  (forall i a d, nth_error (attendees st) i = Some a ->
     let st' := detailsSettled (userId a) d st in
     nth_error (attendees st') i = Some (withDetails d a)
     /\ userDetails (withDetails d a) = d
     /\ isLoadingDetails (withDetails d a) = false
     /\ (forall j b, j <> i -> nth_error (attendees st) j = Some b ->
           nth_error (attendees st') j = Some b)
     /\ List.length (attendees st') = List.length (attendees st)
     /\ filteredAttendees st' = filteredAttendees st
     /\ selectedMembers st' = selectedMembers st)
  /\ (forall a, In a (attendees st) ->
        count_occ string_dec schedule (userId a) = 1)
  /\ (forall done rest i a, schedule = done ++ rest ->
        nth_error (attendees st) i = Some a ->
        nth_error (settleAll get done (attendees st)) i =
        Some (if arrayIncludes done (userId a)
              then withDetails (get (userId a)) a else a))
  /\ settleAll get schedule (attendees st) =
     map (fun a => withDetails (get (userId a)) a) (attendees st).
Proof.
  unfold fetchesStarted in Hperm.
  split; [|split; [|split]].
  - intros i a d Hi st'; subst st'; simpl attendees.
    split.
    { rewrite (applyDetails_nth _ d _ _ _ Hi), String.eqb_refl; reflexivity. }
    split; [reflexivity|]; split; [reflexivity|]; split.
    { intros j b Hji Hj. rewrite (applyDetails_nth _ d _ _ _ Hj).
      destruct (String.eqb_spec (userId b) (userId a)) as [He|]; [|reflexivity].
      exfalso; apply Hji; exact (unique_ids_index _ _ _ _ _ HND Hj Hi He). }
    split; [apply length_map|]; split; reflexivity.
  - intros a Ha.
    rewrite Permutation_count_occ in Hperm; rewrite (Hperm (userId a)).
    assert (Hin : In (userId a) (map userId (attendees st))) by (now apply in_map).
    apply (count_occ_In string_dec) in Hin.
    pose proof (proj1 (NoDup_count_occ string_dec _) HND (userId a)). lia.
  - intros done rest i a _ Hi; now apply settleAll_nth.
  - apply nth_error_ext; intros i.
    destruct (nth_error (attendees st) i) as [a|] eqn:Hi.
    + rewrite (settleAll_nth get schedule _ _ _ Hi), nth_error_map, Hi; simpl.
      assert (Hin : arrayIncludes schedule (userId a) = true).
      { apply arrayIncludes_In. apply (Permutation_in _ (Permutation_sym Hperm)).
        apply in_map. now apply nth_error_In with i. }
      now rewrite Hin.
    + rewrite nth_error_map, Hi; simpl.
      apply nth_error_None. apply nth_error_None in Hi.
      clear - Hi. revert Hi. generalize (attendees st).
      induction schedule as [|u s IH]; intros l Hl; [exact Hl|].
      rewrite settleAll_cons; apply IH. unfold applyDetails; now rewrite length_map.
Qed.

(** ** Tag submitter *)

Section Submitter.

Variable cx : Context.

Lemma string_app_assoc (a b c : string) :
  ((a ++ b) ++ c = a ++ (b ++ c))%string.
Proof. induction a as [|x a IH]; simpl; [reflexivity | now rewrite IH]. Qed.

Lemma length_zero_nil (A : Type) (l : list A) :
  (List.length l =? 0)%nat = true <-> l = [].
Proof.
  destruct l; simpl; split; try reflexivity; discriminate.
Qed.

Lemma missingIds_false :
  missingIds cx = false <->
  JS.truthy (orgId cx) = true /\ JS.truthy (eventId cx) = true
  /\ JS.truthy (photoId cx) = true.
Proof.
  unfold missingIds.
  destruct (JS.truthy (orgId cx)), (JS.truthy (eventId cx)),
    (JS.truthy (photoId cx)); simpl; intuition discriminate.
Qed.

Lemma truthy_Some (o : option string) (s : string) :
  o = Some s -> s <> "" -> JS.truthy o = true.
Proof. intros -> H; now apply truthy_string_true. Qed.

Lemma handleSubmitTags_start_ok (st : PageState) :
  selectedMembers st <> [] -> missingIds cx = false ->
  handleSubmitTags_start cx st =
  inr (setSuccess None (setError None (setSubmitting true st)),
       tagsPath cx, selectedMembers st).
Proof.
  intros Hsel Hids; unfold handleSubmitTags_start.
  destruct (List.length (selectedMembers st) =? 0)%nat eqn:E.
  - apply length_zero_nil in E; contradiction.
  - now rewrite Hids.
Qed.

Lemma tagsPath_literal (o e p : string) :
  orgId cx = Some o -> eventId cx = Some e -> photoId cx = Some p ->
  tagsPath cx =
    ("/organizations/" ++ o ++ "/events/" ++ e ++ "/photos/" ++ p ++ "/tags")%string
  /\ photoPath cx =
    ("/organizations/" ++ o ++ "/events/" ++ e ++ "/photos/" ++ p)%string.
Proof.
  intros Ho He Hp; unfold tagsPath, photoPath, eventPath.
  rewrite Ho, He, Hp; cbn [JS.interpolate].
  now rewrite !string_app_assoc.
Qed.

End Submitter.

(** C1.  With a non-empty selection and the three route IDs present,
    [handleSubmitTags] sends one request, the POST to the photo's tag
    endpoint whose [userIds] is the selection.  When that request
    succeeds the success message is shown, the selection is empty, and
    the only other effect is a timer of 1500 ms that navigates to the
    photo's detail view.  The same holds whatever happened to the state
    while the request was pending. *)
Theorem submit_posts_selection_once (cx : Context)
    (post : string -> list string -> PostResult) (st pending : PageState)
    (o e p : string)
    (Ho : orgId cx = Some o) (He : eventId cx = Some e) (Hp : photoId cx = Some p)
    (Hone : o <> "") (Hene : e <> "") (Hpne : p <> "")
    (Hsel : selectedMembers st <> []) :
  let url := ("/organizations/" ++ o ++ "/events/" ++ e ++ "/photos/" ++ p ++ "/tags")%string in
  let back := ("/organizations/" ++ o ++ "/events/" ++ e ++ "/photos/" ++ p)%string in
  let r := handleSubmitTags cx post st in
  filter isNetwork (snd r) = [HttpPost url (selectedMembers st)]
  /\ (exists st1, handleSubmitTags_start cx st = inr (st1, url, selectedMembers st))
  /\ (post url (selectedMembers st) = PostOk ->
      successAlert (fst r) = Some "Members tagged successfully!"
      /\ errorAlert (fst r) = None
      /\ selectedMembers (fst r) = []
      /\ submitting (fst r) = false
      /\ snd r = [HttpPost url (selectedMembers st); SetTimeout (Navigate back) 1500])
  /\ (let r' := handleSubmitTags_settled cx PostOk pending in
      successAlert (fst r') = Some "Members tagged successfully!"
      /\ selectedMembers (fst r') = []
      /\ snd r' = [SetTimeout (Navigate back) 1500]).
Proof.
  intros url back r.
  assert (Hids : missingIds cx = false).
  { apply missingIds_false; repeat split; eapply truthy_Some; eassumption. }
  destruct (tagsPath_literal cx o e p Ho He Hp) as [Hurl Hback].
  fold url in Hurl; fold back in Hback.
  pose proof (handleSubmitTags_start_ok cx st Hsel Hids) as Hstart.
  rewrite Hurl in Hstart.
  assert (Hr : r = let '(st'', es) :=
                     handleSubmitTags_settled cx (post url (selectedMembers st))
                       (setSuccess None (setError None (setSubmitting true st))) in
                   (st'', HttpPost url (selectedMembers st) :: es)).
  { unfold r, handleSubmitTags; now rewrite Hstart. }
  split; [|split; [|split]].
  - rewrite Hr; destruct (post url (selectedMembers st)); reflexivity.
  - eexists; exact Hstart.
  - intros Hok; rewrite Hr, Hok; simpl; rewrite Hback; repeat split.
  - simpl; rewrite Hback; repeat split.
Qed.

Lemma submit_posts_selection_once_witness :
  "org1" <> "" /\ "ev1" <> "" /\ "ph1" <> "" /\ selectedMembers sampleSelection <> []
  /\ snd (handleSubmitTags sampleContext (fun _ _ => PostOk) sampleSelection)
     = [HttpPost "/organizations/org1/events/ev1/photos/ph1/tags" ["u01"; "u02"];
        SetTimeout (Navigate "/organizations/org1/events/ev1/photos/ph1") 1500]
  /\ selectedMembers
       (fst (handleSubmitTags sampleContext (fun _ _ => PostOk) sampleSelection)) = [].
Proof.
  assert (H1 : "org1" <> "") by discriminate.
  assert (H2 : "ev1" <> "") by discriminate.
  assert (H3 : "ph1" <> "") by discriminate.
  assert (H4 : selectedMembers sampleSelection <> []) by discriminate.
  repeat (split; [assumption|]).
  pose proof (@submit_posts_selection_once sampleContext (fun _ _ => PostOk)
                sampleSelection initialState "org1" "ev1" "ph1"
                eq_refl eq_refl eq_refl H1 H2 H3 H4) as H.
  destruct H as (_ & _ & H & _).
  specialize (H eq_refl); destruct H as (_ & _ & Hs & _ & Hes).
  exact (conj Hes Hs).
Defined.

(** C2, as the code has it.  An empty selection is rejected with the
    message asking to select a member; a non-empty selection with a
    missing organization, event or photo ID is rejected with the message
    about missing identifiers.  The two messages differ, the rejected
    submission changes nothing but the error, and it asks for no effect
    at all, so no request is sent. *)
Theorem submit_guards_reject_without_request (cx : Context)
    (post : string -> list string -> PostResult) (st : PageState) :
  let r := handleSubmitTags cx post st in
  (selectedMembers st = [] ->
     r = (setError (Some "Please select at least one member to tag") st, [])
     /\ errorAlert (fst r) = Some "Please select at least one member to tag"
     /\ filter isNetwork (snd r) = [])
  /\ (selectedMembers st <> [] -> missingIds cx = true ->
     r = (setError (Some "Missing organization, event, or photo ID") st, [])
     /\ errorAlert (fst r) = Some "Missing organization, event, or photo ID"
     /\ filter isNetwork (snd r) = [])
  /\ "Please select at least one member to tag"
     <> "Missing organization, event, or photo ID"
  /\ (missingIds cx = true <->
      JS.truthy (orgId cx) = false \/ JS.truthy (eventId cx) = false
      \/ JS.truthy (photoId cx) = false).
Proof.
  intros r; subst r; unfold handleSubmitTags, handleSubmitTags_start.
  split; [|split; [|split]].
  - intros ->; simpl; repeat split.
  - intros Hsel Hids.
    destruct (List.length (selectedMembers st) =? 0)%nat eqn:E.
    + apply length_zero_nil in E; contradiction.
    + rewrite Hids; repeat split.
  - discriminate.
  - unfold missingIds.
    destruct (JS.truthy (orgId cx)), (JS.truthy (eventId cx)),
      (JS.truthy (photoId cx)); simpl; intuition discriminate.
Qed.

Lemma submit_guards_reject_without_request_witness :
  selectedMembers sampleSelection <> [] /\ missingIds contextWithoutOrg = true
  /\ handleSubmitTags contextWithoutOrg (fun _ _ => PostOk) sampleSelection
     = (setError (Some "Missing organization, event, or photo ID") sampleSelection, [])
  /\ handleSubmitTags sampleContext (fun _ _ => PostOk) initialState
     = (setError (Some "Please select at least one member to tag") initialState, []).
Proof.
  assert (H1 : selectedMembers sampleSelection <> []) by discriminate.
  split; [exact H1|]; split; [reflexivity|].
  pose proof (@submit_guards_reject_without_request contextWithoutOrg
                (fun _ _ => PostOk) sampleSelection) as Ha.
  pose proof (@submit_guards_reject_without_request sampleContext
                (fun _ _ => PostOk) initialState) as Hb.
  destruct Ha as (_ & Ha & _); destruct Hb as (Hb & _).
  split; [exact (proj1 (Ha H1 eq_refl)) | exact (proj1 (Hb eq_refl))].
Defined.

(** C2 as worded fails when an ID is missing and the selection is empty
    too: the first guard answers, and the message shown is the one about
    the selection. *)
Lemma missing_id_with_empty_selection_counterexample :
  missingIds contextWithoutOrg = true
  /\ errorAlert (fst (handleSubmitTags contextWithoutOrg (fun _ _ => PostOk) initialState))
     = Some "Please select at least one member to tag"
  /\ errorAlert (fst (handleSubmitTags contextWithoutOrg (fun _ _ => PostOk) initialState))
     <> Some "Missing organization, event, or photo ID".
Proof.
  split; [reflexivity|]; split; [reflexivity|].
  intros H; vm_compute in H; discriminate H.
Qed.



(** ** The page as a whole *)

Section Reachable.

Variable cx : Context.

Lemma loadMoreRendered_searching (st : PageState) :
  JS.truthy_string (searchTerm st) = true -> loadMoreRendered st = false.
Proof.
  intros H; unfold loadMoreRendered; rewrite H; simpl.
  now rewrite andb_false_r.
Qed.

Lemma first_page_window (st : PageState) (v : string) :
  windowWhileSearching (handleSearchChange v st).
Proof.
  intros _; unfold visibleAttendees, handleSearchChange, initialDisplayCount; project.
  now rewrite (firstn_min_length _ 12), Nat.min_comm.
Qed.

(** No event takes the page out of [windowWhileSearching]. *)
Lemma dispatch_window (ev : Event) (st st' : PageState) (es : list Effect) :
  dispatch cx ev st = Some (st', es) ->
  windowWhileSearching st -> windowWhileSearching st'.
Proof.
  intros H Hinv; destruct ev; cbn [dispatch] in H.
  - unfold fetchInitialAttendees_start in H.
    destruct (missingIds cx); injection H as <- _; exact Hinv.
  - destruct r as [t|]; injection H as <- _; exact Hinv.
  - destruct r as [[[|x l]|]|]; injection H as <- _;
      intros _; unfold visibleAttendees; project;
      solve [reflexivity | now rewrite firstn_nil].
  - injection H as <- _; exact Hinv.
  - injection H as <- _; intros _; reflexivity.
  - injection H as <- _; apply first_page_window.
  - destruct (loadMoreRendered st && negb (loadingMore st)) eqn:E; [|discriminate].
    injection H as <- _. apply andb_true_iff in E; destruct E as [E _].
    intros Ht; change (JS.truthy_string (searchTerm st) = true) in Ht.
    rewrite (loadMoreRendered_searching st Ht) in E; discriminate.
  - injection H as <- _; exact Hinv.
  - destruct (gridRendered st); [|discriminate].
    destruct (nth_error (visibleAttendees st) i) as [a|]; [|discriminate].
    destruct (selectable a); injection H as <- _; exact Hinv.
  - destruct (submitDisabled st); [discriminate|].
    unfold handleSubmitTags_start in H.
    destruct (List.length (selectedMembers st) =? 0)%nat;
      [|destruct (missingIds cx)]; injection H as <- _; exact Hinv.
  - destruct (submitting st); [|discriminate].
    destruct r; injection H as <- _; exact Hinv.
  - injection H as <- _; exact Hinv.
  - injection H as <- _; exact Hinv.
Qed.

Lemma run_window (evs : list Event) :
  forall (st st' : PageState) (es : list Effect),
  run cx evs st = Some (st', es) ->
  windowWhileSearching st -> windowWhileSearching st'.
Proof.
  induction evs as [|ev evs IH]; intros st st' es H Hinv; cbn [run] in H.
  - injection H as <- _; exact Hinv.
  - destruct (dispatch cx ev st) as [[st1 es1]|] eqn:Hd; [|discriminate].
    destruct (run cx evs st1) as [[st2 es2]|] eqn:Hr; [|discriminate].
    injection H as <- _.
    exact (IH _ _ _ Hr (dispatch_window _ _ _ _ Hd Hinv)).
Qed.

End Reachable.

(** C9.  In every state the page can reach, when the search term is not
    empty the Load More control is not rendered, whatever [hasMore] is,
    the load-more action cannot be taken, and the visible window is the
    first [min (filtered length) 12] entries of the filtered list. *)
Theorem no_load_more_while_searching (cx : Context) (evs : list Event)
    (st : PageState) (es : list Effect)
    (Hrun : run cx evs initialState = Some (st, es))
    (Hterm : searchTerm st <> "") :
  loadMoreRendered st = false
  /\ (forall b, loadMoreRendered (setHasMore b st) = false)
  /\ dispatch cx ClickLoadMore st = None
  /\ visibleAttendees st =
     firstn (Nat.min (List.length (filteredAttendees st)) 12) (filteredAttendees st).
Proof.
  apply truthy_string_true in Hterm.
  pose proof (loadMoreRendered_searching st Hterm) as Hno.
  split; [exact Hno|]; split; [|split].
  - intros b; now apply loadMoreRendered_searching.
  - cbn [dispatch]; now rewrite Hno.
  - apply (run_window cx evs initialState st es Hrun); [|exact Hterm].
    intros Hempty; discriminate Hempty.
Qed.

(** ** Selection tracker *)

Section Selection.

Variable cx : Context.

Lemma arrayIncludes_false (prev : list string) (uid : string) :
  arrayIncludes prev uid = false <-> ~ In uid prev.
Proof.
  clear toLowerCase.
  rewrite <- arrayIncludes_In; destruct (arrayIncludes prev uid); intuition congruence.
Qed.

Lemma toggleMember_absent (uid : string) (prev : list string) :
  arrayIncludes prev uid = false -> toggleMember uid prev = prev ++ [uid].
Proof. intros H; unfold toggleMember; now rewrite H. Qed.

Lemma toggleMember_present (uid : string) (prev : list string) :
  arrayIncludes prev uid = true ->
  toggleMember uid prev = filter (fun id => negb (String.eqb id uid)) prev.
Proof. intros H; unfold toggleMember; now rewrite H. Qed.

Lemma count_occ_filter_other (uid x : string) (prev : list string) :
  x <> uid ->
  count_occ string_dec (filter (fun id => negb (String.eqb id uid)) prev) x
  = count_occ string_dec prev x.
Proof.
  intros Hx; induction prev as [|y l IH]; [reflexivity|]; simpl.
  destruct (String.eqb_spec y uid) as [->|Hy]; simpl.
  - destruct (string_dec uid x); [congruence | exact IH].
  - destruct (string_dec y x); now rewrite IH.
Qed.

Lemma toggleMember_NoDup (uid : string) (prev : list string) :
  NoDup prev -> NoDup (toggleMember uid prev).
Proof.
  intros H; unfold toggleMember.
  destruct (arrayIncludes prev uid) eqn:E.
  - now apply NoDup_filter.
  - apply arrayIncludes_false in E.
    apply NoDup_app; [exact H | repeat constructor; intros [] | ].
    intros x Hx [<- | []]; contradiction.
Qed.

Lemma toggleAll_NoDup (uids prev : list string) :
  NoDup prev -> NoDup (toggleAll uids prev).
Proof.
  revert prev; induction uids as [|u uids IH]; intros prev H; [exact H|].
  apply IH; now apply toggleMember_NoDup.
Qed.

Lemma detailRequests_no_post (l : list AttendeeForTagging) :
  postsDuplicateFree (flat_map (detailRequest cx) l).
Proof.
  intros url body H; apply in_flat_map in H; destruct H as [a [_ H]].
  unfold detailRequest in H; destruct (isCurrentUser cx (userId a)).
  - destruct H.
  - destruct H as [H|[]]; discriminate H.
Qed.

(** An event keeps the selection duplicate-free, and a POST it sends
    carries the selection it found. *)
Lemma dispatch_selection (ev : Event) (st st' : PageState) (es : list Effect) :
  dispatch cx ev st = Some (st', es) ->
  NoDup (selectedMembers st) ->
  NoDup (selectedMembers st') /\ postsDuplicateFree es.
Proof.
  intros H Hinv; destruct ev; cbn [dispatch] in H.
  - unfold fetchInitialAttendees_start in H.
    destruct (missingIds cx); injection H as <- <-; (split; [exact Hinv | no_post]).
  - destruct r as [t|]; injection H as <- <-; (split; [exact Hinv | no_post]).
  - destruct r as [[[|x l]|]|]; injection H as <- <-;
      (split; [exact Hinv | try no_post]).
    apply detailRequests_no_post.
  - injection H as <- <-; split; [exact Hinv | no_post].
  - injection H as <- <-; split; [exact Hinv | no_post].
  - injection H as <- <-; split; [exact Hinv | no_post].
  - destruct (loadMoreRendered st && negb (loadingMore st)); [|discriminate].
    injection H as <- <-; split; [exact Hinv | no_post].
  - injection H as <- <-; split; [exact Hinv | no_post].
  - destruct (gridRendered st); [|discriminate].
    destruct (nth_error (visibleAttendees st) i) as [a|]; [|discriminate].
    destruct (selectable a); injection H as <- <-; (split; [|no_post]).
    + now apply toggleMember_NoDup.
    + exact Hinv.
  - destruct (submitDisabled st); [discriminate|].
    unfold handleSubmitTags_start in H.
    destruct (List.length (selectedMembers st) =? 0)%nat;
      [|destruct (missingIds cx)]; injection H as <- <-;
      (split; [exact Hinv | try no_post]).
    intros url body [Hp|[]]; injection Hp as _ <-; exact Hinv.
  - destruct (submitting st); [|discriminate].
    destruct r; injection H as <- <-; (split; [|no_post]).
    + constructor.
    + exact Hinv.
  - injection H as <- <-; split; [exact Hinv | no_post].
  - injection H as <- <-; split; [exact Hinv | no_post].
Qed.

Lemma run_selection (evs : list Event) :
  forall (st st' : PageState) (es : list Effect),
  run cx evs st = Some (st', es) ->
  NoDup (selectedMembers st) ->
  NoDup (selectedMembers st') /\ postsDuplicateFree es.
Proof.
  induction evs as [|ev evs IH]; intros st st' es H Hinv; cbn [run] in H.
  - injection H as <- <-; split; [exact Hinv | intros url body []].
  - destruct (dispatch cx ev st) as [[st1 es1]|] eqn:Hd; [|discriminate].
    destruct (run cx evs st1) as [[st2 es2]|] eqn:Hr; [|discriminate].
    injection H as <- <-.
    destruct (dispatch_selection _ _ _ _ Hd Hinv) as [H1 P1].
    destruct (IH _ _ _ Hr H1) as [H2 P2].
    split; [exact H2|].
    intros url body Hin; apply in_app_or in Hin; destruct Hin as [Hin|Hin].
    + exact (P1 _ _ Hin).
    + exact (P2 _ _ Hin).
Qed.

End Selection.

(** C10.  From the empty selection any sequence of toggles gives a list
    without duplicates: a toggle appends an ID that is absent, and on a
    present ID removes every occurrence and nothing else.  So the body
    of a POST sent by [handleSubmitTags] after such toggles has no
    duplicates, and in every run of the page from its initial state the
    selection and the body of every POST sent are duplicate-free. *)
Theorem selection_has_no_duplicates (cx : Context) (uids prev : list string)
    (uid : string) (post : string -> list string -> PostResult)
    (s : PageState) (evs : list Event) (st : PageState) (es : list Effect)
    (Hsel : selectedMembers s = toggleAll uids [])
    (Hrun : run cx evs initialState = Some (st, es)) :
  NoDup (toggleAll uids [])
  /\ (arrayIncludes prev uid = false -> toggleMember uid prev = prev ++ [uid])
  /\ (arrayIncludes prev uid = true ->
      ~ In uid (toggleMember uid prev)
      /\ forall x, x <> uid -> count_occ string_dec (toggleMember uid prev) x
                              = count_occ string_dec prev x)
  /\ postsDuplicateFree (snd (handleSubmitTags cx post s))
  /\ (forall url body, In (HttpPost url body) (snd (handleSubmitTags cx post s)) ->
        body = toggleAll uids [])
  /\ NoDup (selectedMembers st)
  /\ postsDuplicateFree es.
Proof.
  assert (Hnd : NoDup (toggleAll uids [])) by (apply toggleAll_NoDup; constructor).
  assert (Hbody : forall url body,
             In (HttpPost url body) (snd (handleSubmitTags cx post s)) ->
             body = toggleAll uids []).
  { intros url body; unfold handleSubmitTags, handleSubmitTags_start.
    destruct (List.length (selectedMembers s) =? 0)%nat; [intros []|].
    destruct (missingIds cx); [intros []|].
    destruct (post (tagsPath cx) (selectedMembers s)); simpl.
    - intros [H|[H|[]]]; [injection H as _ <-; exact Hsel | discriminate H].
    - intros [H|[]]; injection H as _ <-; exact Hsel. }
  split; [exact Hnd|]; split; [apply toggleMember_absent|]; split; [|split; [|split]].
  - intros Hin; rewrite (toggleMember_present _ _ Hin); split.
    + intros H; apply filter_In in H; destruct H as [_ H].
      now rewrite String.eqb_refl in H.
    + intros x Hx; now apply count_occ_filter_other.
  - intros url body H; rewrite (Hbody url body H); exact Hnd.
  - exact Hbody.
  - split.
    + apply (run_selection cx evs initialState st es Hrun); constructor.
    + apply (run_selection cx evs initialState st es Hrun); constructor.
Qed.

(** ** Worked examples *)

Lemma pagination_window_witness :
  List.length (visibleAttendees sampleLoaded) = 12
  /\ hasMore sampleLoaded = true
  /\ displayCount (fst (handleLoadMore sampleLoaded)) = 14
  /\ hasMore (fst (handleLoadMore sampleLoaded)) = false
  /\ displayCount (fst (handleLoadMore (setDisplayCount 0 sampleLoaded))) = 12.
Proof.
  pose proof (pagination_window sampleContext sampleRaws initialState
                sampleLoaded 1) as H.
  pose proof (pagination_window sampleContext sampleRaws initialState
                (setDisplayCount 0 sampleLoaded) 1) as H0.
  cbv zeta in H, H0.
  destruct H as (_ & Hlen & Hmore & Hcount & _ & _ & Hdone & _).
  destruct H0 as (_ & _ & _ & _ & _ & Hstep & _).
  split; [exact Hlen|]; split; [exact Hmore|]; split; [exact Hcount|].
  split; [apply Hdone; reflexivity|].
  apply Hstep; vm_compute; repeat constructor.
Defined.

Lemma details_update_touches_one_entry_witness :
  NoDup (map userId (attendees samplePair))
  /\ Permutation ["u02"; "u01"] (fetchesStarted (attendees samplePair))
  /\ settleAll sampleFetch ["u02"; "u01"] (attendees samplePair) =
     [withDetails (Some ann) (makeAttendee sampleContext (RawString "u01"));
      withDetails None (makeAttendee sampleContext (RawString "USER#u02"))]
  /\ nth_error (attendees (detailsSettled "u01" (Some ann) samplePair)) 1 =
     Some (makeAttendee sampleContext (RawString "USER#u02")).
Proof.
  assert (HND : NoDup (map userId (attendees samplePair))).
  { repeat constructor; simpl; intuition discriminate. }
  assert (Hperm : Permutation ["u02"; "u01"] (fetchesStarted (attendees samplePair)))
    by apply perm_swap.
  split; [exact HND|]; split; [exact Hperm|].
  destruct (details_update_touches_one_entry samplePair sampleFetch
              ["u02"; "u01"] HND Hperm) as (Hone & _ & _ & Hall).
  split; [exact Hall|].
  destruct (Hone 0 (makeAttendee sampleContext (RawString "u01")) (Some ann) eq_refl)
    as (_ & _ & _ & Hframe & _).
  apply (Hframe 1); [discriminate | reflexivity].
Defined.

(** * Further properties of the page *)

(** ** Fetching one user's details *)

Lemma app_not_empty_r (a b : string) : b <> "" -> (a ++ b)%string <> "".
Proof. destruct a; simpl; [trivial | discriminate]. Qed.

Lemma truthy_interpolate (o : option string) :
  JS.truthy o = true -> o = Some (JS.interpolate o) /\ JS.interpolate o <> "".
Proof.
  destruct o as [s|]; simpl; [|discriminate].
  intros H; split; [reflexivity | now apply truthy_string_true].
Qed.

Lemma or_else_not_empty (o : option string) (d : string) :
  d <> "" -> JS.or_else o d <> "".
Proof.
  intros Hd; destruct o as [s|]; simpl; [|exact Hd].
  destruct (JS.truthy_string s) eqn:E; [now apply truthy_string_true | exact Hd].
Qed.

Lemma isCurrentUser_spec (cx : Context) (uid : string) :
  isCurrentUser cx uid = true <-> exists u, user cx = Some u /\ id u = uid.
Proof.
  unfold isCurrentUser; destruct (user cx) as [u|]; split.
  - intros H; apply String.eqb_eq in H; exists u; now split.
  - intros [u' [Hu <-]]; injection Hu as ->; apply String.eqb_refl.
  - discriminate.
  - intros [u' [Hu _]]; discriminate.
Qed.

(** The answer for somebody else than the signed-in user. *)
Lemma fetchUserDetails_other (cx : Context) (get : string -> UserResponse)
    (uid : string) :
  isCurrentUser cx uid = false ->
  fetchUserDetails cx get uid =
  match get (detailsPath uid) with
  | UserOk (Some d) =>
      if JS.truthy (userFirstName d) && JS.truthy (userLastName d)
      then Some (mkUserDetails uid
                   (JS.or_else (userEmail d) (uid ++ "@unknown.com"))
                   (JS.interpolate (userFirstName d))
                   (JS.interpolate (userLastName d)))
      else None
  | UserOk None => None
  | UserFailed => None
  end.
Proof.
  unfold isCurrentUser, fetchUserDetails; destruct (user cx) as [u|]; [|reflexivity].
  now intros ->.
Qed.

(** X1.  Details that [fetchUserDetails] returns carry the ID that was
    asked for.  When they come from the backend, the first name, the
    last name and the e-mail are not empty: the names are the ones the
    backend sent, the e-mail is the backend's or the placeholder built
    from the ID. *)
Theorem fetched_details_carry_requested_id (cx : Context)
    (get : string -> UserResponse) (uid : string) (d : UserDetails)
    (Hd : fetchUserDetails cx get uid = Some d) :
  id d = uid
  /\ (isCurrentUser cx uid = false ->
      firstName d <> "" /\ lastName d <> "" /\ email d <> ""
      /\ exists ud, get (detailsPath uid) = UserOk (Some ud)
           /\ userFirstName ud = Some (firstName d)
           /\ userLastName ud = Some (lastName d)
           /\ email d = JS.or_else (userEmail ud) (uid ++ "@unknown.com")).
Proof.
  destruct (isCurrentUser cx uid) eqn:Hcur.
  - split; [|discriminate].
    apply isCurrentUser_spec in Hcur; destruct Hcur as [u [Hu Hid]].
    unfold fetchUserDetails in Hd; rewrite Hu, <- Hid, String.eqb_refl in Hd.
    now injection Hd as <-.
  - rewrite (fetchUserDetails_other cx get uid Hcur) in Hd.
    destruct (get (detailsPath uid)) as [[ud|]|] eqn:Hget; try discriminate.
    destruct (JS.truthy (userFirstName ud)) eqn:Hf; [|discriminate].
    destruct (JS.truthy (userLastName ud)) eqn:Hl; [|discriminate].
    injection Hd as <-; simpl; split; [reflexivity|]; intros _.
    destruct (truthy_interpolate _ Hf) as [Hf1 Hf2].
    destruct (truthy_interpolate _ Hl) as [Hl1 Hl2].
    repeat split; try assumption.
    + apply or_else_not_empty, app_not_empty_r; discriminate.
    + exists ud; repeat split; assumption.
Qed.

Lemma fetched_details_carry_requested_id_witness :
  fetchUserDetails sampleContext answerBob "u02"
    = Some (mkUserDetails "u02" "u02@unknown.com" "Bob" "Ray")
  /\ id (mkUserDetails "u02" "u02@unknown.com" "Bob" "Ray") = "u02"
  /\ email (mkUserDetails "u02" "u02@unknown.com" "Bob" "Ray") <> "".
Proof.
  assert (H : fetchUserDetails sampleContext answerBob "u02"
              = Some (mkUserDetails "u02" "u02@unknown.com" "Bob" "Ray"))
    by reflexivity.
  split; [exact H|].
  destruct (fetched_details_carry_requested_id sampleContext answerBob "u02" _ H)
    as [Hid Hrest].
  split; [exact Hid|].
  destruct (Hrest eq_refl) as (_ & _ & He & _); exact He.
Defined.

(** X2.  For the signed-in user the details are the local profile,
    whatever the backend would answer, and the detail fetch of that
    attendee sends no request. *)
Theorem signed_in_user_needs_no_request (cx : Context) (u : UserDetails)
    (get : string -> UserResponse) (a : AttendeeForTagging)
    (Hu : user cx = Some u) (Ha : userId a = id u) :
  fetchUserDetails cx get (userId a)
    = Some (mkUserDetails (id u) (email u) (firstName u) (lastName u))
  /\ fetchUserDetails cx (fun _ => UserFailed) (userId a)
     = fetchUserDetails cx get (userId a)
  /\ detailRequest cx a = [].
Proof.
  unfold fetchUserDetails, detailRequest, isCurrentUser.
  rewrite Hu, Ha, String.eqb_refl; repeat split.
Qed.

Lemma signed_in_user_needs_no_request_witness :
  user contextOfAnn = Some ann
  /\ fetchUserDetails contextOfAnn (fun _ => UserFailed) "u01" = Some ann
  /\ detailRequest contextOfAnn (makeAttendee contextOfAnn (RawString "u01")) = [].
Proof.
  split; [reflexivity|].
  destruct (signed_in_user_needs_no_request contextOfAnn ann (fun _ => UserFailed)
              (makeAttendee contextOfAnn (RawString "u01")) eq_refl eq_refl)
    as (H1 & _ & H3).
  exact (conj H1 H3).
Defined.

(** X3.  [fetchUserDetails] returns null exactly when the attendee is
    not the signed-in user and the request failed, or answered without a
    user record, or with a record whose first or last name is missing or
    empty.  A missing e-mail alone does not make it fail. *)
Theorem fetch_is_null_exactly_when_unresolved (cx : Context)
    (get : string -> UserResponse) (uid : string) :
  fetchUserDetails cx get uid = None <->
  isCurrentUser cx uid = false
  /\ match get (detailsPath uid) with
     | UserOk (Some ud) =>
         JS.truthy (userFirstName ud) = false \/ JS.truthy (userLastName ud) = false
     | UserOk None => True
     | UserFailed => True
     end.
Proof.
  clear toLowerCase.
  destruct (isCurrentUser cx uid) eqn:Hcur.
  - split; [|intros [H _]; discriminate].
    apply isCurrentUser_spec in Hcur; destruct Hcur as [u [Hu Hid]].
    unfold fetchUserDetails; rewrite Hu, <- Hid, String.eqb_refl; discriminate.
  - rewrite (fetchUserDetails_other cx get uid Hcur).
    destruct (get (detailsPath uid)) as [[ud|]|]; try tauto.
    destruct (JS.truthy (userFirstName ud)), (JS.truthy (userLastName ud)); simpl;
      split; try tauto; try discriminate; intros [_ [H|H]]; discriminate.
Qed.

(** ** Normalization once more *)

Lemma split_pieces_clean (c : ascii) (s x : string) :
  In x (JS.split c s) -> JS.count_char c x = 0.
Proof.
  revert x; induction s as [|d s IH]; intros x; simpl.
  - intros [<-|[]]; reflexivity.
  - destruct (Ascii.eqb d c) eqn:E.
    + intros [<-|H]; [reflexivity | now apply IH].
    + destruct (JS.split c s) as [|h t] eqn:Hs.
      * intros [<-|[]]; simpl; now rewrite E.
      * intros [<-|H].
        -- simpl; rewrite E; simpl; apply IH; now left.
        -- apply IH; now right.
Qed.

Lemma normalize_string_clean (s : string) :
  JS.count_char hash (normalizeUserId (RawString s)) = 0.
Proof.
  unfold normalizeUserId.
  destruct (JS.includes s "#") eqn:E.
  - unfold JS.at_index.
    destruct (nth_error (JS.split hash s) 1) as [x|] eqn:Hn; [|reflexivity].
    apply nth_error_In in Hn; exact (split_pieces_clean hash s x Hn).
  - change "#" with (String hash "") in E; rewrite includes_char in E.
    apply negb_false_iff, Nat.eqb_eq in E; exact E.
Qed.

(** X4.  The ID taken from a string never contains the separator, so
    normalizing it again changes nothing, and the partition key built
    from it ("USER#" followed by the ID) normalizes back to the ID. *)
Theorem normalized_string_id_round_trip (cx : Context) (s : string) :
  JS.count_char hash (normalizeUserId (RawString s)) = 0
  /\ normalizeUserId (RawString (normalizeUserId (RawString s)))
     = normalizeUserId (RawString s)
  /\ normalizeUserId (RawString (PK (makeAttendee cx (RawString s))))
     = userId (makeAttendee cx (RawString s)).
Proof.
  pose proof (normalize_string_clean s) as Hc.
  split; [exact Hc|]; split.
  - now apply normalize_plain.
  - cbn [PK userId makeAttendee].
    change ("USER#" ++ normalizeUserId (RawString s))%string
      with ("USER" ++ String hash (normalizeUserId (RawString s)))%string.
    rewrite normalize_prefixed by reflexivity.
    now rewrite split_no_separator.
Qed.

(** ** The attendee list arrives *)

Lemma makeAttendee_wellFormed (cx : Context) (r : RawAttendee) :
  normalizeUserId r <> "" -> wellFormedEntry (makeAttendee cx r).
Proof. intros H; repeat split; exact H. Qed.

Lemma initialAttendeeList_fresh (cx : Context) (raws : list RawAttendee)
    (a : AttendeeForTagging) :
  In a (initialAttendeeList cx raws) ->
  wellFormedEntry a /\ isLoadingDetails a = true /\ userDetails a = None.
Proof.
  unfold initialAttendeeList; intros H; apply filter_In in H.
  destruct H as [H Ht]; apply in_map_iff in H; destruct H as [r [<- _]].
  split; [|split; reflexivity].
  apply makeAttendee_wellFormed; now apply truthy_string_true.
Qed.

Lemma detailRequests_shape (cx : Context) (l : list AttendeeForTagging) :
  flat_map (detailRequest cx) l =
  map (fun a => HttpGet ("/users/" ++ userId a))
      (filter (fun a => negb (isCurrentUser cx (userId a))) l).
Proof.
  induction l as [|a l IH]; simpl; [reflexivity|].
  unfold detailRequest at 1.
  destruct (isCurrentUser cx (userId a)); simpl; now rewrite IH.
Qed.

(** X5.  Whatever the attendee request brings (a failure, nothing, an
    empty list, a list), the page stops loading, the filtered list is
    the full list, every entry is new (non-empty ID, keys and role set,
    loading, no details), and at most one page is visible.  The search
    term and the selection are left as they were.  A failure shows the
    message about loading attendees and empties the list; any other
    outcome leaves the error as it was. *)
Theorem attendee_list_arrival_outcome (cx : Context)
    (r : option (option (list RawAttendee))) (st : PageState) :
  let st' := fst (fetchInitialAttendees_list cx r st) in
  loading st' = false
  /\ filteredAttendees st' = attendees st'
  /\ (forall a, In a (attendees st') ->
        wellFormedEntry a /\ isLoadingDetails a = true /\ userDetails a = None)
  /\ List.length (visibleAttendees st') <= 12
  /\ searchTerm st' = searchTerm st
  /\ selectedMembers st' = selectedMembers st
  /\ match r with
     | None =>
         errorAlert st' = Some "Failed to load event attendees. Please try again later."
         /\ attendees st' = [] /\ hasMore st' = false
     | Some None => error st' = error st /\ attendees st' = [] /\ hasMore st' = false
     | Some (Some raws) =>
         error st' = error st /\ attendees st' = initialAttendeeList cx raws
     end.
Proof.
  destruct r as [[[|x l]|]|]; cbv zeta; unfold fetchInitialAttendees_list;
    unfold visibleAttendees; project.
  - repeat split; try reflexivity;
      try (match goal with H : In _ [] |- _ => destruct H end).
    rewrite firstn_nil; simpl; lia.
  - split; [reflexivity|]; split; [reflexivity|]; split.
    { intros a Ha; now apply (initialAttendeeList_fresh cx (x :: l)). }
    repeat split.
    rewrite length_firstn; unfold initialDisplayCount; lia.
  - repeat split; try reflexivity;
      try (match goal with H : In _ [] |- _ => destruct H end).
    rewrite firstn_nil; simpl; lia.
  - repeat split; try reflexivity;
      try (match goal with H : In _ [] |- _ => destruct H end).
    rewrite firstn_nil; simpl; lia.
Qed.

(** X6.  The effects of the arrival are the detail requests and nothing
    else: one GET of /users/{userId} for each entry of the new list
    that is not the signed-in user, in the order of the list.  A failed
    or empty answer sends nothing. *)
Theorem attendee_list_arrival_requests (cx : Context)
    (r : option (option (list RawAttendee))) (st : PageState) :
  snd (fetchInitialAttendees_list cx r st) =
  map (fun a => HttpGet ("/users/" ++ userId a))
      (filter (fun a => negb (isCurrentUser cx (userId a)))
              (attendees (fst (fetchInitialAttendees_list cx r st)))).
Proof.
  destruct r as [[[|x l]|]|]; try reflexivity.
  unfold fetchInitialAttendees_list; project.
  apply detailRequests_shape.
Qed.

(** X7.  The event name is the empty string the page starts with until
    the title request settles: the loader's first step and the arrival
    of the attendee list leave it as it is, so with a missing route ID,
    when no title is asked for, it stays empty.  Once the title request
    has settled the name is not empty: it is the title the backend sent
    when that is a non-empty string, and "Event" when the title is
    missing, empty, or its request failed.  In every case the attendee
    list is asked for next, so a failed title is not fatal. *)
Theorem event_title_falls_back (cx : Context) (r : option (option string))
    (st : PageState) :
  let res := fetchInitialAttendees_title cx r st in
  eventName (fst res) <> ""
  /\ (forall t, r = Some (Some t) -> t <> "" -> eventName (fst res) = t)
  /\ (r = None \/ r = Some None \/ r = Some (Some "") ->
      eventName (fst res) = "Event")
  /\ snd res = [GetEventAttendees (JS.interpolate (orgId cx))
                                  (JS.interpolate (eventId cx))]
  /\ error (fst res) = error st /\ loading (fst res) = loading st
  /\ eventName initialState = ""
  /\ eventName (fst (fetchInitialAttendees_start cx st)) = eventName st
  /\ (forall l, eventName (fst (fetchInitialAttendees_list cx l st)) = eventName st)
  /\ (missingIds cx = true ->
      fetchInitialAttendees_start cx initialState
      = (setLoading false
           (setError (Some "Missing organization, event, or photo ID") initialState),
         [])
      /\ eventName (fst (fetchInitialAttendees_start cx initialState)) = "").
Proof.
  cbv zeta; unfold fetchInitialAttendees_title; project.
  split; [|split; [|split; [|split; [|split; [|split; [|split; [|split; [|split]]]]]]]].
  - destruct r as [t|]; project; [|discriminate].
    + apply or_else_not_empty; discriminate.
  - intros t -> Ht; project; simpl.
    apply truthy_string_true in Ht; now rewrite Ht.
  - intros [-> | [-> | ->]]; reflexivity.
  - destruct r; reflexivity.
  - destruct r; reflexivity.
  - destruct r; reflexivity.
  - reflexivity.
  - unfold fetchInitialAttendees_start; destruct (missingIds cx); reflexivity.
  - intros [[[|x l]|]|]; reflexivity.
  - intros Hm; unfold fetchInitialAttendees_start; rewrite Hm; split; reflexivity.
Qed.

Lemma event_title_falls_back_witness :
  eventName (fst (fetchInitialAttendees_title sampleContext
                    (Some (Some "Gala")) initialState)) = "Gala"
  /\ eventName (fst (fetchInitialAttendees_title sampleContext None initialState))
     = "Event"
  /\ missingIds contextWithoutOrg = true
  /\ eventName (fst (fetchInitialAttendees_start contextWithoutOrg initialState)) = "".
Proof.
  destruct (event_title_falls_back sampleContext (Some (Some "Gala")) initialState)
    as (_ & H1 & _).
  destruct (event_title_falls_back sampleContext None initialState)
    as (_ & _ & H2 & _).
  destruct (event_title_falls_back contextWithoutOrg None initialState)
    as (_ & _ & _ & _ & _ & _ & _ & _ & _ & H3).
  split; [apply (H1 "Gala" eq_refl); discriminate|].
  split; [apply H2; now left|].
  split; [reflexivity | exact (proj2 (H3 eq_refl))].
Defined.

(** ** Filter and pager once more *)

Lemma lower_ascii_cases (c : ascii) :
  JS.lower_ascii c = c
  \/ ((JS.code c < 128)%N /\ (JS.code (JS.lower_ascii c) < 128)%N).
Proof.
  destruct c as [[] [] [] [] [] [] [] []];
    first [left; reflexivity | right; split; reflexivity].
Qed.

Lemma lower_ascii_twice (c : ascii) :
  JS.lower_ascii (JS.lower_ascii c) = JS.lower_ascii c.
Proof. destruct c as [[] [] [] [] [] [] [] []]; reflexivity. Qed.

Lemma toLowerCaseAscii_twice (s : string) :
  JS.toLowerCaseAscii (JS.toLowerCaseAscii s) = JS.toLowerCaseAscii s.
Proof.
  induction s as [|c s IH]; simpl; [reflexivity|].
  now rewrite lower_ascii_twice, IH.
Qed.

Lemma white1_lower (c : ascii) : JS.white1 (JS.lower_ascii c) = JS.white1 c.
Proof. destruct c as [[] [] [] [] [] [] [] []]; reflexivity. Qed.

Lemma code_lower_eqb (c : ascii) (k : N) :
  (128 <= k)%N ->
  (JS.code (JS.lower_ascii c) =? k)%N = (JS.code c =? k)%N.
Proof.
  intros Hk; destruct (lower_ascii_cases c) as [->|[H1 H2]]; [reflexivity|].
  destruct (N.eqb_spec (JS.code (JS.lower_ascii c)) k),
    (N.eqb_spec (JS.code c) k); try reflexivity; lia.
Qed.

Lemma code_lower_leb_low (c : ascii) (k : N) :
  (128 <= k)%N ->
  (k <=? JS.code (JS.lower_ascii c))%N = (k <=? JS.code c)%N.
Proof.
  intros Hk; destruct (lower_ascii_cases c) as [->|[H1 H2]]; [reflexivity|].
  destruct (N.leb_spec k (JS.code (JS.lower_ascii c))),
    (N.leb_spec k (JS.code c)); try reflexivity; lia.
Qed.

Lemma code_lower_leb_high (c : ascii) (k : N) :
  (128 <= k)%N ->
  (JS.code (JS.lower_ascii c) <=? k)%N = (JS.code c <=? k)%N.
Proof.
  intros Hk; destruct (lower_ascii_cases c) as [->|[H1 H2]]; [reflexivity|].
  destruct (N.leb_spec (JS.code (JS.lower_ascii c)) k),
    (N.leb_spec (JS.code c) k); try reflexivity; lia.
Qed.

Lemma white2_lower (c1 c2 : ascii) :
  JS.white2 (JS.lower_ascii c1) (JS.lower_ascii c2) = JS.white2 c1 c2.
Proof. unfold JS.white2; now rewrite !code_lower_eqb by lia. Qed.

Lemma white3_lower (c1 c2 c3 : ascii) :
  JS.white3 (JS.lower_ascii c1) (JS.lower_ascii c2) (JS.lower_ascii c3)
  = JS.white3 c1 c2 c3.
Proof.
  unfold JS.white3; cbv zeta.
  now rewrite !code_lower_eqb, code_lower_leb_low, code_lower_leb_high by lia.
Qed.

Lemma dropWhite_lower (s : string) :
  JS.dropWhite (JS.toLowerCaseAscii s)
  = option_map JS.toLowerCaseAscii (JS.dropWhite s).
Proof.
  unfold JS.dropWhite.
  destruct s as [|c1 [|c2 [|c3 r3]]]; cbn [JS.toLowerCaseAscii];
    rewrite ?white1_lower, ?white2_lower, ?white3_lower;
    repeat match goal with
           | |- context [if ?b then _ else _] => destruct b
           end; reflexivity.
Qed.

Lemma trimStart_lower (s : string) :
  JS.trimStart (JS.toLowerCaseAscii s) = JS.toLowerCaseAscii (JS.trimStart s).
Proof.
  remember (String.length s) as n eqn:Hn; revert s Hn.
  induction n as [n IH] using lt_wf_ind; intros s Hn.
  rewrite (trimStart_step s), trimStart_step, dropWhite_lower.
  destruct (JS.dropWhite s) as [r|] eqn:Hd; [|reflexivity].
  cbn [option_map]; apply (IH (String.length r)); [|reflexivity].
  pose proof (dropWhite_shorter s r Hd); lia.
Qed.

Lemma trim_empty_iff (s : string) : JS.trim s = "" <-> JS.trimStart s = "".
Proof. unfold JS.trim; now rewrite trimEnd_empty, trimStart_twice. Qed.

(** On ASCII text lower-casing keeps blank strings blank and the others
    not. *)
Lemma trim_lower_ascii (s : string) :
  JS.trim (JS.toLowerCaseAscii s) = "" <-> JS.trim s = "".
Proof.
  rewrite !trim_empty_iff, trimStart_lower.
  destruct (JS.trimStart s); simpl; split; try reflexivity; discriminate.
Qed.

Lemma filter_twice (A : Type) (f : A -> bool) (l : list A) :
  filter f (filter f l) = filter f l.
Proof.
  induction l as [|x l IH]; simpl; [reflexivity|].
  destruct (f x) eqn:E; simpl; [rewrite E, IH|]; auto.
Qed.

Lemma filterAttendees_incl (term : string) (l : list AttendeeForTagging) :
  incl (filterAttendees term l) l.
Proof.
  rewrite filterAttendees_cases; destruct (String.eqb (JS.trim term) "").
  - apply incl_refl.
  - intros a H; apply filter_In in H; tauto.
Qed.

Lemma loadMoreTimes_frame (k : nat) (s : PageState) :
  attendees (loadMoreTimes k s) = attendees s
  /\ searchTerm (loadMoreTimes k s) = searchTerm s
  /\ selectedMembers (loadMoreTimes k s) = selectedMembers s.
Proof.
  revert s; induction k as [|k IH]; intros s; [repeat split|].
  change (loadMoreTimes (S k) s) with (loadMoreTimes k (fst (handleLoadMore s))).
  destruct (IH (fst (handleLoadMore s))) as (H1 & H2 & H3).
  rewrite H1, H2, H3; repeat split.
Qed.

(** X8.  Two search terms that differ only in the case of their letters
    select the same attendees; in particular a term and its lower-case
    form do.  This rests on two facts about lower-casing, which hold of
    JavaScript's: done twice it is as done once, and it makes no blank
    string of another nor another of a blank one. *)
Theorem search_ignores_case_of_term (t1 t2 : string)
    (l : list AttendeeForTagging)
    (Hidem : forall s, toLowerCase (toLowerCase s) = toLowerCase s)
    (Hblank : forall s, JS.trim (toLowerCase s) = "" <-> JS.trim s = "")
    (H : toLowerCase t1 = toLowerCase t2) :
  filterAttendees t1 l = filterAttendees t2 l
  /\ filterAttendees (toLowerCase t1) l = filterAttendees t1 l.
Proof.
  assert (Hb : forall s, String.eqb (JS.trim (toLowerCase s)) ""
                         = String.eqb (JS.trim s) "").
  { intros s; destruct (String.eqb_spec (JS.trim (toLowerCase s)) "") as [E|E],
      (String.eqb_spec (JS.trim s) "") as [E'|E']; try reflexivity.
    - exfalso; apply E', Hblank, E.
    - exfalso; apply E, Hblank, E'. }
  rewrite !filterAttendees_cases, Hidem, (Hb t1).
  rewrite <- (Hb t1), <- (Hb t2), <- H.
  split; reflexivity.
Qed.

(** X9.  Running the filter effect twice is running it once.  What it
    stores is drawn from the full list and is stable under the same
    search; at most one page is visible afterwards.  Pages opened with
    Load More are given up when the effect runs again, as it does each
    time an attendee's details arrive: the count is back to at most 12. *)
Theorem filter_effect_resets_the_window (st : PageState) (k : nat)
    (uid : string) (d : option UserDetails) :
  applyFilter (applyFilter st) = applyFilter st
  /\ incl (filteredAttendees (applyFilter st)) (attendees st)
  /\ filterAttendees (searchTerm st) (filteredAttendees (applyFilter st))
     = filteredAttendees (applyFilter st)
  /\ List.length (visibleAttendees (applyFilter st)) <= 12
  /\ filteredAttendees (applyFilter (loadMoreTimes k st))
     = filteredAttendees (applyFilter st)
  /\ displayCount (applyFilter (loadMoreTimes k st))
     = Nat.min (List.length (filteredAttendees (applyFilter st))) 12
  /\ displayCount (applyFilter (detailsSettled uid d (loadMoreTimes k st))) <= 12.
Proof.
  destruct (loadMoreTimes_frame k st) as (Ha & Ht & _).
  split; [reflexivity|]; split; [apply filterAttendees_incl|]; split; [|split; [|split; [|split]]].
  - unfold applyFilter; project. rewrite !filterAttendees_cases.
    destruct (String.eqb (JS.trim (searchTerm st)) ""); [reflexivity|].
    apply filter_twice.
  - unfold visibleAttendees, applyFilter; project.
    rewrite length_firstn; unfold initialDisplayCount; lia.
  - unfold applyFilter; project; now rewrite Ha, Ht.
  - unfold applyFilter; project; now rewrite Ha, Ht.
  - unfold applyFilter; project; unfold initialDisplayCount; lia.
Qed.

(** X10.  A search term of whitespace only filters nothing, yet it hides
    the Load More control: the window is the first 12 attendees, [hasMore]
    may be true, and the attendees after the twelfth cannot be brought
    up while that term stands. *)
Theorem blank_term_hides_load_more (cx : Context) (st : PageState)
    (term : string)
    (Hne : term <> "") (Hblank : whitespaceOnly term) :
  let st' := applyFilter (handleSearchChange term st) in
  filteredAttendees st' = attendees st
  /\ visibleAttendees st' = firstn 12 (attendees st)
  /\ hasMore st' = (12 <? List.length (attendees st))%nat
  /\ loadMoreRendered st' = false
  /\ dispatch cx ClickLoadMore st' = None.
Proof.
  cbv zeta.
  assert (Hf : filteredAttendees (applyFilter (handleSearchChange term st))
               = attendees st).
  { unfold applyFilter, handleSearchChange; project.
    now apply filterAttendees_blank. }
  assert (Hno : loadMoreRendered (applyFilter (handleSearchChange term st)) = false).
  { apply loadMoreRendered_searching; now apply truthy_string_true. }
  split; [exact Hf|]; split; [|split; [|split]].
  - unfold visibleAttendees; rewrite Hf.
    unfold applyFilter, handleSearchChange, initialDisplayCount; project.
    rewrite (filterAttendees_blank _ _ Hblank).
    now rewrite (firstn_min_length _ 12), Nat.min_comm.
  - unfold applyFilter, handleSearchChange, initialDisplayCount; project.
    now rewrite (filterAttendees_blank _ _ Hblank).
  - exact Hno.
  - cbn [dispatch]; now rewrite Hno.
Qed.

(** X11.  Typing a search term and letting the filter effect run leaves
    the matching attendees as the filtered list and the first
    [min K 12] of them visible, [K] the number of matches.  The full
    list and the selection are untouched: members selected before stay
    selected when the search hides them, and a submission made under
    the search still posts all of them. *)
Theorem search_keeps_selection (cx : Context) (st : PageState) (v : string)
    (Hsel : selectedMembers st <> []) (Hids : missingIds cx = false) :
  let st' := applyFilter (handleSearchChange v st) in
  let K := List.length (filterAttendees v (attendees st)) in
  searchTerm st' = v
  /\ filteredAttendees st' = filterAttendees v (attendees st)
  /\ List.length (visibleAttendees st') = Nat.min K 12
  /\ hasMore st' = (12 <? K)%nat
  /\ attendees st' = attendees st
  /\ selectedMembers st' = selectedMembers st
  /\ exists st1,
       handleSubmitTags_start cx st' = inr (st1, tagsPath cx, selectedMembers st).
Proof.
  cbv zeta; repeat split.
  - unfold visibleAttendees, applyFilter, handleSearchChange, initialDisplayCount;
      project.
    rewrite length_firstn; lia.
  - eexists.
    exact (handleSubmitTags_start_ok cx (applyFilter (handleSearchChange v st)) Hsel Hids).
Qed.

(** X12.  Load More never shrinks the window of a count within the
    list: the old window is a prefix of the new one and the count stays
    within the list.  Pressed often enough ([12 k] covering what is
    left) it shows the whole filtered list.  At the end of the list it
    changes neither count nor window.  While its indicator is on, until
    the 200 ms timer clears it, the control does not react. *)
Theorem load_more_reaches_the_end (cx : Context) (s : PageState) (k : nat) :
  let s' := fst (handleLoadMore s) in
  let len := List.length (filteredAttendees s) in
  (displayCount s <= len ->
     displayCount s <= displayCount s' /\ displayCount s' <= len
     /\ visibleAttendees s = firstn (displayCount s) (visibleAttendees s'))
  /\ (len <= displayCount s + 12 * k ->
      visibleAttendees (loadMoreTimes k s) = filteredAttendees s)
  /\ (displayCount s = len ->
      displayCount s' = len /\ hasMore s' = false
      /\ visibleAttendees s' = visibleAttendees s)
  /\ loadingMore s' = true
  /\ dispatch cx ClickLoadMore s' = None
  /\ snd (handleLoadMore s) = [SetTimeout ClearLoadingMore 200].
Proof.
  cbv zeta; split; [|split; [|split; [|split; [|split]]]].
  - intros Hle; rewrite handleLoadMore_count; unfold initialDisplayCount.
    split; [lia|]; split; [lia|].
    unfold visibleAttendees; rewrite handleLoadMore_filtered, handleLoadMore_count.
    rewrite firstn_firstn; f_equal; unfold initialDisplayCount; lia.
  - intros Hk; unfold visibleAttendees.
    rewrite loadMoreTimes_filtered, firstn_min_length, loadMoreTimes_window.
    rewrite Nat.min_r by exact Hk; apply firstn_all.
  - intros He; unfold visibleAttendees.
    rewrite handleLoadMore_filtered, handleLoadMore_count.
    unfold handleLoadMore, initialDisplayCount; project.
    rewrite Nat.min_r by lia.
    split; [reflexivity|]; split; [apply Nat.ltb_irrefl | now rewrite He].
  - reflexivity.
  - cbn [dispatch]; unfold handleLoadMore; project.
    now rewrite andb_false_r.
  - reflexivity.
Qed.

(** ** Selection once more *)

Lemma toggleMember_In (uid x : string) (prev : list string) :
  In x (toggleMember uid prev) <->
  (x <> uid /\ In x prev) \/ (x = uid /\ ~ In uid prev).
Proof.
  unfold toggleMember; destruct (arrayIncludes prev uid) eqn:E.
  - apply arrayIncludes_In in E; rewrite filter_In, negb_true_iff, String.eqb_neq.
    split; [intros [H1 H2]; left; now split|].
    intros [[H1 H2] | [-> H2]]; [now split | contradiction].
  - apply arrayIncludes_false in E; rewrite in_app_iff; simpl; split.
    + intros [H | [<- | []]]; [left | right; now split].
      split; [intros ->; contradiction | exact H].
    + intros [[_ H] | [-> _]]; [now left | right; now left].
Qed.

Lemma filter_absent (uid : string) (prev : list string) :
  ~ In uid prev -> filter (fun id => negb (String.eqb id uid)) prev = prev.
Proof.
  induction prev as [|y l IH]; intros H; simpl; [reflexivity|].
  destruct (String.eqb_spec y uid) as [->|Hy]; simpl.
  - exfalso; apply H; now left.
  - rewrite IH; [reflexivity | intros Hin; apply H; now right].
Qed.

(** X13.  After a toggle an ID is selected when it was selected and is
    not the toggled one, or is the toggled one and was not selected.
    Toggling an absent ID twice gives the selection back as it was;
    toggling a present one twice gives the same IDs with that one moved
    to the end. *)
Theorem toggle_twice_restores_selection (uid x : string) (prev : list string) :
  (In x (toggleMember uid prev) <->
     (x <> uid /\ In x prev) \/ (x = uid /\ ~ In uid prev))
  /\ (~ In uid prev -> toggleMember uid (toggleMember uid prev) = prev)
  /\ (In uid prev ->
      toggleMember uid (toggleMember uid prev)
      = filter (fun id => negb (String.eqb id uid)) prev ++ [uid])
  /\ (In uid prev -> NoDup prev ->
      Permutation (toggleMember uid (toggleMember uid prev)) prev).
Proof.
  clear toLowerCase.
  split; [apply toggleMember_In|].
  assert (Hgone : In uid prev ->
            toggleMember uid (toggleMember uid prev)
            = filter (fun id => negb (String.eqb id uid)) prev ++ [uid]).
  { intros Hin. apply arrayIncludes_In in Hin.
    rewrite (toggleMember_present uid prev Hin).
    apply toggleMember_absent, arrayIncludes_false.
    intros H; apply filter_In in H; destruct H as [_ H].
    now rewrite String.eqb_refl in H. }
  split; [|split; [exact Hgone|]].
  - intros Hout.
    rewrite (toggleMember_absent uid prev (proj2 (arrayIncludes_false prev uid) Hout)).
    assert (Hin : arrayIncludes (prev ++ [uid]) uid = true)
      by (apply arrayIncludes_In, in_app_iff; right; now left).
    rewrite (toggleMember_present uid _ Hin), filter_app; simpl.
    now rewrite String.eqb_refl, filter_absent, app_nil_r.
  - intros Hin Hnd. apply NoDup_Permutation; [|exact Hnd|].
    + now apply toggleMember_NoDup, toggleMember_NoDup.
    + intros y; rewrite !toggleMember_In.
      destruct (string_dec y uid) as [->|Hy]; intuition congruence.
Qed.

Lemma toggle_twice_restores_selection_witness :
  ~ In "u03" ["u01"; "u02"]
  /\ toggleMember "u03" (toggleMember "u03" ["u01"; "u02"]) = ["u01"; "u02"]
  /\ In "u01" ["u01"; "u02"]
  /\ toggleMember "u01" (toggleMember "u01" ["u01"; "u02"]) = ["u02"; "u01"].
Proof.
  assert (H1 : ~ In "u03" ["u01"; "u02"]) by (simpl; intuition discriminate).
  assert (H2 : In "u01" ["u01"; "u02"]) by (now left).
  destruct (toggle_twice_restores_selection "u03" "u03" ["u01"; "u02"])
    as (_ & Ha & _).
  destruct (toggle_twice_restores_selection "u01" "u01" ["u01"; "u02"])
    as (_ & _ & Hb & _).
  split; [exact H1|]; split; [exact (Ha H1)|]; split; [exact H2 | exact (Hb H2)].
Defined.

(** X14.  A click on a card sends nothing and touches nothing but the
    selection.  The card is one of the visible ones; when its attendee
    is still loading or has no details the click changes nothing, and
    otherwise it toggles that attendee's ID. *)
Theorem card_click_selects_only_resolved (cx : Context) (i : nat)
    (st st' : PageState) (es : list Effect)
    (H : dispatch cx (ClickCard i) st = Some (st', es)) :
  es = []
  /\ i < displayCount st
  /\ exists a, nth_error (filteredAttendees st) i = Some a
       /\ ((selectable a = false /\ st' = st)
           \/ (exists d, userDetails a = Some d /\ isLoadingDetails a = false
               /\ st' = handleMemberSelect (userId a) st
               /\ cardSelected st' a = negb (cardSelected st a))).
Proof.
  cbn [dispatch] in H.
  destruct (gridRendered st); [|discriminate].
  destruct (nth_error (visibleAttendees st) i) as [a|] eqn:Hn; [|discriminate].
  assert (Hi : i < displayCount st).
  { assert (Hlt : i < List.length (visibleAttendees st))
      by (apply nth_error_Some; congruence).
    unfold visibleAttendees in Hlt; rewrite length_firstn in Hlt; lia. }
  assert (Hf : nth_error (filteredAttendees st) i = Some a).
  { unfold visibleAttendees in Hn; now rewrite nth_error_firstn, (proj2 (Nat.ltb_lt _ _) Hi) in Hn. }
  destruct (selectable a) eqn:Hs; injection H as <- <-.
  - split; [reflexivity|]; split; [exact Hi|]; exists a; split; [exact Hf|]; right.
    unfold selectable in Hs; destruct (userDetails a) as [d|]; [|discriminate].
    exists d; split; [reflexivity|]; split; [now apply negb_true_iff|].
    split; [reflexivity|].
    unfold cardSelected, handleMemberSelect; project.
    destruct (arrayIncludes (selectedMembers st) (userId a)) eqn:E; simpl.
    + apply arrayIncludes_false; rewrite toggleMember_In. apply arrayIncludes_In in E.
      intros [[Hne _] | [_ Hout]]; [now apply Hne | contradiction].
    + apply arrayIncludes_In, toggleMember_In; right; split; [reflexivity|].
      now apply arrayIncludes_false.
  - split; [reflexivity|]; split; [exact Hi|]; exists a; split; [exact Hf|].
    left; now split.
Qed.

(** ** Detail arrivals once more *)

(** X15.  An arrival for an ID that is not in the list changes nothing.
    Arrivals never change the IDs or the length of the list.  Of two
    arrivals for the same ID the later one wins; arrivals for different
    IDs can be swapped. *)
Theorem detail_arrivals_commute (l : list AttendeeForTagging)
    (u1 u2 : string) (d1 d2 : option UserDetails) :
  (~ In u1 (map userId l) -> applyDetails u1 d1 l = l)
  /\ map userId (applyDetails u1 d1 l) = map userId l
  /\ applyDetails u1 d1 (applyDetails u1 d2 l) = applyDetails u1 d1 l
  /\ (u1 <> u2 ->
      applyDetails u1 d1 (applyDetails u2 d2 l)
      = applyDetails u2 d2 (applyDetails u1 d1 l)).
Proof.
  unfold applyDetails; split; [|split; [|split]].
  - intros Hout; rewrite <- (map_id l) at 2; apply map_ext_in.
    intros a Ha; destruct (String.eqb_spec (userId a) u1) as [E|_]; [|reflexivity].
    exfalso; apply Hout; rewrite <- E; now apply in_map.
  - rewrite map_map; apply map_ext; intros a.
    destruct (String.eqb (userId a) u1); reflexivity.
  - rewrite map_map; apply map_ext; intros a.
    destruct (String.eqb (userId a) u1) eqn:E; cbn [userId withDetails];
      rewrite E; reflexivity.
  - intros Hne; rewrite !map_map; apply map_ext; intros a.
    destruct (String.eqb_spec (userId a) u1) as [E1|E1];
      destruct (String.eqb_spec (userId a) u2) as [E2|E2];
      cbn [userId withDetails];
      try (exfalso; congruence);
      repeat match goal with
             | |- context [String.eqb ?x ?y] =>
                 destruct (String.eqb_spec x y); try congruence
             end.
Qed.

Lemma detail_arrivals_commute_witness :
  ~ In "u09" (map userId (attendees samplePair))
  /\ applyDetails "u09" (Some ann) (attendees samplePair) = attendees samplePair
  /\ "u01" <> "u02"
  /\ applyDetails "u01" (Some ann) (applyDetails "u02" None (attendees samplePair))
     = applyDetails "u02" None (applyDetails "u01" (Some ann) (attendees samplePair)).
Proof.
  assert (H1 : ~ In "u09" (map userId (attendees samplePair)))
    by (simpl; intuition discriminate).
  assert (H2 : "u01" <> "u02") by discriminate.
  destruct (detail_arrivals_commute (attendees samplePair) "u09" "u09" (Some ann) None)
    as (Ha & _).
  destruct (detail_arrivals_commute (attendees samplePair) "u01" "u02" (Some ann) None)
    as (_ & _ & _ & Hb).
  split; [exact H1|]; split; [exact (Ha H1)|]; split; [exact H2 | exact (Hb H2)].
Defined.

(** ** What a card shows *)

Lemma fetchUserDetails_id (cx : Context) (get : string -> UserResponse)
    (uid : string) (d : UserDetails) :
  fetchUserDetails cx get uid = Some d -> id d = uid.
Proof.
  intros Hd; destruct (isCurrentUser cx uid) eqn:Hcur.
  - apply isCurrentUser_spec in Hcur; destruct Hcur as [u [Hu Hid]].
    unfold fetchUserDetails in Hd; rewrite Hu, <- Hid, String.eqb_refl in Hd.
    now injection Hd as <-.
  - rewrite (fetchUserDetails_other cx get uid Hcur) in Hd.
    destruct (get (detailsPath uid)) as [[ud|]|]; try discriminate.
    destruct (JS.truthy (userFirstName ud) && JS.truthy (userLastName ud));
      [|discriminate].
    now injection Hd as <-.
Qed.

(** X16.  After an attendee's fetch has settled, the card shows details
    whose ID is the attendee's ID, whether they came from the fetch or
    are the placeholder.  The card can be selected exactly when the
    fetch returned details; otherwise it shows "Attendee User" with the
    placeholder e-mail.  Before the fetch settles the card shows
    "Loading..." and cannot be selected. *)
Theorem card_shows_own_id (cx : Context) (get : string -> UserResponse)
    (r : RawAttendee) :
  let a := makeAttendee cx r in
  let a' := withDetails (fetchUserDetails cx get (userId a)) a in
  id (cardDetails a') = userId a
  /\ (selectable a' = true <-> fetchUserDetails cx get (userId a) <> None)
  /\ (selectable a' = false ->
      cardDetails a'
      = mkUserDetails (userId a) (userId a ++ "@unknown.com") "Attendee" "User")
  /\ selectable a = false
  /\ cardDetails a
     = mkUserDetails (userId a) (userId a ++ "@unknown.com") "Loading..." "".
Proof.
  cbv zeta; unfold cardDetails, selectable; cbn [userDetails isLoadingDetails userId withDetails makeAttendee].
  destruct (fetchUserDetails cx get (normalizeUserId r)) as [d|] eqn:Hd.
  - split; [exact (fetchUserDetails_id cx get _ d Hd)|].
    split; [split; [discriminate | reflexivity]|].
    split; [discriminate|]; split; reflexivity.
  - split; [reflexivity|]; split; [split; [discriminate | congruence]|].
    repeat split.
Qed.

(** ** Submitting through the button *)

Lemma submitDisabled_false (st : PageState) :
  submitDisabled st = false <->
  selectedMembers st <> [] /\ submitting st = false /\ loading st = false.
Proof.
  unfold submitDisabled.
  destruct (selectedMembers st) as [|x l]; simpl;
    destruct (submitting st), (loading st); simpl; split;
    try discriminate; try (intros (H & _ & _); congruence);
    try (intros (_ & H & _); discriminate); try (intros (_ & _ & H); discriminate);
    try reflexivity.
  intros _; repeat split; discriminate.
Qed.

(** X17.  The submit button reacts only with a non-empty selection and
    neither submission nor loading under way, so the message about an
    empty selection cannot come up through it.  The click either shows
    the message about missing identifiers and sends nothing, or sends
    the one POST with the selection and disables the button until the
    request settles. *)
Theorem submit_button_outcomes (cx : Context) (st st' : PageState)
    (es : list Effect)
    (H : dispatch cx ClickSubmit st = Some (st', es)) :
  selectedMembers st <> [] /\ submitting st = false /\ loading st = false
  /\ error st' <> Some "Please select at least one member to tag"
  /\ ((missingIds cx = true /\ es = []
       /\ st' = setError (Some "Missing organization, event, or photo ID") st)
      \/ (missingIds cx = false
          /\ es = [HttpPost (tagsPath cx) (selectedMembers st)]
          /\ submitting st' = true
          /\ selectedMembers st' = selectedMembers st
          /\ errorAlert st' = None /\ successAlert st' = None
          /\ dispatch cx ClickSubmit st' = None)).
Proof.
  cbn [dispatch] in H.
  destruct (submitDisabled st) eqn:Hdis; [discriminate|].
  apply submitDisabled_false in Hdis; destruct Hdis as (Hsel & Hsub & Hload).
  split; [exact Hsel|]; split; [exact Hsub|]; split; [exact Hload|].
  destruct (missingIds cx) eqn:Hids.
  - unfold handleSubmitTags_start in H; rewrite Hids in H.
    destruct (List.length (selectedMembers st) =? 0)%nat eqn:E.
    + apply length_zero_nil in E; contradiction.
    + injection H as <- <-; split; [discriminate|]; left; repeat split.
  - rewrite (handleSubmitTags_start_ok cx st Hsel Hids) in H.
    injection H as <- <-; split; [discriminate|]; right.
    repeat split. cbn [dispatch]. unfold submitDisabled; project.
    now rewrite orb_true_r.
Qed.

Lemma countPosts_app (es es' : list Effect) :
  countPosts (es ++ es') = countPosts es + countPosts es'.
Proof. unfold countPosts; now rewrite filter_app, length_app. Qed.

Lemma countPosts_detailRequests (cx : Context) (l : list AttendeeForTagging) :
  countPosts (flat_map (detailRequest cx) l) = 0.
Proof.
  rewrite detailRequests_shape; unfold countPosts.
  induction (filter (fun a => negb (isCurrentUser cx (userId a))) l) as [|a l' IH];
    [reflexivity | exact IH].
Qed.

(** One event: a POST sent raises the requests under way, a settled
    request lowers them, nothing else moves them. *)
Lemma dispatch_posts (cx : Context) (ev : Event) (s s' : PageState)
    (es : list Effect) :
  dispatch cx ev s = Some (s', es) ->
  countPosts es + pendingPosts s
  = (if isSubmitSettled ev then 1 else 0) + pendingPosts s'.
Proof.
  intros H; destruct ev; cbn [dispatch] in H; cbn [isSubmitSettled].
  - unfold fetchInitialAttendees_start in H.
    destruct (missingIds cx); injection H as <- <-; reflexivity.
  - destruct r as [t|]; injection H as <- <-; reflexivity.
  - destruct r as [[[|x l]|]|]; injection H as <- <-; try reflexivity.
    rewrite countPosts_detailRequests; reflexivity.
  - injection H as <- <-; reflexivity.
  - injection H as <- <-; reflexivity.
  - injection H as <- <-; reflexivity.
  - destruct (loadMoreRendered s && negb (loadingMore s)); [|discriminate].
    injection H as <- <-; reflexivity.
  - injection H as <- <-; reflexivity.
  - destruct (gridRendered s); [|discriminate].
    destruct (nth_error (visibleAttendees s) i) as [a|]; [|discriminate].
    destruct (selectable a); injection H as <- <-; reflexivity.
  - destruct (submitDisabled s) eqn:Hdis; [discriminate|].
    apply submitDisabled_false in Hdis; destruct Hdis as (_ & Hsub & _).
    unfold handleSubmitTags_start in H.
    destruct (List.length (selectedMembers s) =? 0)%nat;
      [|destruct (missingIds cx)]; injection H as <- <-;
      unfold pendingPosts; project; rewrite Hsub; reflexivity.
  - destruct (submitting s) eqn:Hsub; [|discriminate].
    destruct r; injection H as <- <-; unfold pendingPosts; project;
      rewrite Hsub; reflexivity.
  - injection H as <- <-; reflexivity.
  - injection H as <- <-; reflexivity.
Qed.

Lemma run_posts (cx : Context) (evs : list Event) :
  forall (s st : PageState) (es : list Effect),
  run cx evs s = Some (st, es) ->
  countPosts es + pendingPosts s = countSettled evs + pendingPosts st.
Proof.
  induction evs as [|ev evs IH]; intros s st es H; cbn [run] in H.
  - injection H as <- <-; reflexivity.
  - destruct (dispatch cx ev s) as [[s1 es1]|] eqn:Hd; [|discriminate].
    destruct (run cx evs s1) as [[s2 es2]|] eqn:Hr; [|discriminate].
    injection H as <- <-.
    pose proof (dispatch_posts cx ev s s1 es1 Hd) as H1.
    pose proof (IH s1 s2 es2 Hr) as H2.
    rewrite countPosts_app. unfold countSettled in *; cbn [filter].
    destruct (isSubmitSettled ev); cbn [List.length]; lia.
Qed.

(** X18.  In every run of the page the POSTs sent are the settled ones
    plus at most one still under way: while a submission is pending the
    button is disabled, so a second request is never sent before the
    first has settled. *)
Theorem one_submission_in_flight (cx : Context) (evs : list Event)
    (st : PageState) (es : list Effect)
    (Hrun : run cx evs initialState = Some (st, es)) :
  countPosts es = countSettled evs + pendingPosts st
  /\ pendingPosts st <= 1
  /\ (submitting st = true -> dispatch cx ClickSubmit st = None).
Proof.
  pose proof (run_posts cx evs initialState st es Hrun) as H.
  change (pendingPosts initialState) with 0 in H.
  split; [lia|]; split.
  - unfold pendingPosts; destruct (submitting st); lia.
  - intros Hs; cbn [dispatch]; unfold submitDisabled; rewrite Hs.
    now rewrite orb_true_r.
Qed.

(** X19.  After a failed submission the button works again with the
    selection unchanged, and a second attempt sends the same POST.
    After a successful one the selection is empty: the button is
    disabled, and calling the handler again is rejected with the
    message about the selection, without a request. *)
Theorem failed_submission_can_be_retried (cx : Context)
    (post : string -> list string -> PostResult) (st : PageState)
    (Hsel : selectedMembers st <> []) (Hids : missingIds cx = false)
    (Hload : loading st = false) :
  let r := handleSubmitTags cx post st in
  (forall err, post (tagsPath cx) (selectedMembers st) = PostFailed err ->
     submitDisabled (fst r) = false
     /\ filter isPost (snd (handleSubmitTags cx post (fst r)))
        = [HttpPost (tagsPath cx) (selectedMembers st)])
  /\ (post (tagsPath cx) (selectedMembers st) = PostOk ->
      submitDisabled (fst r) = true
      /\ handleSubmitTags cx post (fst r)
         = (setError (Some "Please select at least one member to tag") (fst r), [])).
Proof.
  cbv zeta.
  assert (Hr : handleSubmitTags cx post st =
               let '(st'', es) :=
                 handleSubmitTags_settled cx (post (tagsPath cx) (selectedMembers st))
                   (setSuccess None (setError None (setSubmitting true st))) in
               (st'', HttpPost (tagsPath cx) (selectedMembers st) :: es)).
  { unfold handleSubmitTags; now rewrite (handleSubmitTags_start_ok cx st Hsel Hids). }
  rewrite Hr; split.
  - intros err Herr; rewrite Herr; cbn [handleSubmitTags_settled fst snd].
    split.
    + apply submitDisabled_false; project; repeat split; assumption.
    + unfold handleSubmitTags.
      rewrite handleSubmitTags_start_ok; [|exact Hsel|exact Hids].
      project; rewrite Herr; reflexivity.
  - intros Hok; rewrite Hok; cbn [handleSubmitTags_settled fst snd].
    split; reflexivity.
Qed.

Lemma failed_submission_can_be_retried_witness :
  selectedMembers (setLoading false sampleSelection) <> []
  /\ missingIds sampleContext = false
  /\ submitDisabled
       (fst (handleSubmitTags sampleContext
               (fun _ _ => PostFailed (mkAxiosError None))
               (setLoading false sampleSelection))) = false
  /\ submitDisabled
       (fst (handleSubmitTags sampleContext (fun _ _ => PostOk)
               (setLoading false sampleSelection))) = true.
Proof.
  assert (H1 : selectedMembers (setLoading false sampleSelection) <> [])
    by discriminate.
  split; [exact H1|]; split; [reflexivity|].
  destruct (failed_submission_can_be_retried sampleContext
              (fun _ _ => PostFailed (mkAxiosError None))
              (setLoading false sampleSelection) H1 eq_refl eq_refl) as (Ha & _).
  destruct (failed_submission_can_be_retried sampleContext (fun _ _ => PostOk)
              (setLoading false sampleSelection) H1 eq_refl eq_refl) as (_ & Hb).
  split; [exact (proj1 (Ha _ eq_refl)) | exact (proj1 (Hb eq_refl))].
Defined.

(** ** Shapes kept along every run *)

Section Shapes.

Variable cx : Context.

Lemma in_firstn (A : Type) (n : nat) (l : list A) (x : A) :
  In x (firstn n l) -> In x l.
Proof.
  intros H; rewrite <- (firstn_skipn n l); apply in_or_app; now left.
Qed.

Lemma withDetails_wellFormed (d : option UserDetails) (a : AttendeeForTagging) :
  wellFormedEntry a -> wellFormedEntry (withDetails d a).
Proof.
  intros (H1 & H2 & H3 & _); repeat split; try assumption.
  cbn [isLoadingDetails withDetails]; discriminate.
Qed.

Lemma applyDetails_wellFormed (uid : string) (d : option UserDetails)
    (l : list AttendeeForTagging) :
  (forall a, In a l -> wellFormedEntry a) ->
  forall a, In a (applyDetails uid d l) -> wellFormedEntry a.
Proof.
  intros Hl a Ha; unfold applyDetails in Ha; apply in_map_iff in Ha.
  destruct Ha as [a0 [<- Ha0]].
  destruct (String.eqb (userId a0) uid);
    [apply withDetails_wellFormed|]; now apply Hl.
Qed.

Lemma detailRequests_only_get (l : list AttendeeForTagging) :
  postsCarryIds (flat_map (detailRequest cx) l).
Proof.
  intros url body H; rewrite detailRequests_shape in H.
  apply in_map_iff in H; destruct H as [a [H _]]; discriminate H.
Qed.

Lemma wellFormed_selectable (a : AttendeeForTagging) :
  wellFormedEntry a -> (selectable a = true <-> userDetails a <> None).
Proof.
  intros (_ & _ & _ & H); unfold selectable.
  destruct (userDetails a) as [d|]; [|split; [discriminate | congruence]].
  destruct (isLoadingDetails a); [specialize (H eq_refl); discriminate|].
  split; [discriminate | reflexivity].
Qed.

Lemma dispatch_shape (ev : Event) (s s' : PageState) (es : list Effect) :
  dispatch cx ev s = Some (s', es) ->
  pageShape s -> pageShape s' /\ postsCarryIds es.
Proof.
  intros H Hinv; pose proof Hinv as (Ha & Hf & Hs).
  destruct ev; cbn [dispatch] in H.
  - unfold fetchInitialAttendees_start in H.
    destruct (missingIds cx); injection H as <- <-; (split; [exact Hinv | no_post]).
  - destruct r as [t|]; injection H as <- <-; (split; [exact Hinv | no_post]).
  - destruct r as [[[|x l]|]|]; injection H as <- <-.
    + split; [|no_post]; split; [|split]; project; try (intros a []); exact Hs.
    + split; [|apply detailRequests_only_get].
      split; [|split]; project; try exact Hs;
        intros a Hin; now apply (initialAttendeeList_fresh cx (x :: l)).
    + split; [|no_post]; split; [|split]; project; try (intros a []); exact Hs.
    + split; [|no_post]; split; [|split]; project; try (intros a []); exact Hs.
  - injection H as <- <-; split; [|no_post].
    split; [|split]; [|exact Hf|exact Hs].
    unfold detailsSettled; project; now apply applyDetails_wellFormed.
  - injection H as <- <-; split; [|no_post].
    split; [exact Ha|]; split; [|exact Hs].
    unfold applyFilter; project; intros a Hin.
    apply Ha; exact (filterAttendees_incl _ _ a Hin).
  - injection H as <- <-; split; [exact Hinv | no_post].
  - destruct (loadMoreRendered s && negb (loadingMore s)); [|discriminate].
    injection H as <- <-; split; [exact Hinv | no_post].
  - injection H as <- <-; split; [exact Hinv | no_post].
  - destruct (gridRendered s); [|discriminate].
    destruct (nth_error (visibleAttendees s) i) as [a|] eqn:Hn; [|discriminate].
    destruct (selectable a); injection H as <- <-; (split; [|no_post]);
      [|exact Hinv].
    split; [exact Ha|]; split; [exact Hf|].
    unfold handleMemberSelect; project; rewrite toggleMember_In.
    assert (Hid : userId a <> "").
    { apply nth_error_In in Hn; unfold visibleAttendees in Hn.
      apply in_firstn in Hn; exact (proj1 (Hf a Hn)). }
    intros [[_ Hin] | [He _]]; [contradiction | congruence].
  - destruct (submitDisabled s) eqn:Hdis; [discriminate|].
    apply submitDisabled_false in Hdis; destruct Hdis as (Hsel & _ & _).
    unfold handleSubmitTags_start in H.
    destruct (List.length (selectedMembers s) =? 0)%nat;
      [|destruct (missingIds cx)]; injection H as <- <-;
      (split; [exact Hinv | try no_post]).
    intros url body [Hp|[]]; injection Hp as _ <-; now split.
  - destruct (submitting s); [|discriminate].
    destruct r; injection H as <- <-; (split; [|no_post]); [|exact Hinv].
    split; [exact Ha|]; split; [exact Hf|]; project; intros [].
  - injection H as <- <-; split; [exact Hinv | no_post].
  - injection H as <- <-; split; [exact Hinv | no_post].
Qed.

Lemma run_shape (evs : list Event) :
  forall (s st : PageState) (es : list Effect),
  run cx evs s = Some (st, es) ->
  pageShape s -> pageShape st /\ postsCarryIds es.
Proof.
  induction evs as [|ev evs IH]; intros s st es H Hinv; cbn [run] in H.
  - injection H as <- <-; split; [exact Hinv | intros url body []].
  - destruct (dispatch cx ev s) as [[s1 es1]|] eqn:Hd; [|discriminate].
    destruct (run cx evs s1) as [[s2 es2]|] eqn:Hr; [|discriminate].
    injection H as <- <-.
    destruct (dispatch_shape _ _ _ _ Hd Hinv) as [H1 P1].
    destruct (IH _ _ _ Hr H1) as [H2 P2].
    split; [exact H2|].
    intros url body Hin; apply in_app_or in Hin; destruct Hin as [Hin|Hin].
    + exact (P1 _ _ Hin).
    + exact (P2 _ _ Hin).
Qed.

End Shapes.

(** X20.  In every state the page can reach, each entry of the full and
    of the filtered list has a non-empty ID, the partition key "USER#"
    followed by that ID and the role MEMBER, and carries no details
    while it is loading, so a card can be selected exactly when its
    entry has details.  No selected ID is empty, and every POST sent
    carries at least one ID and no empty one. *)
Theorem entries_stay_well_formed (cx : Context) (evs : list Event)
    (st : PageState) (es : list Effect)
    (Hrun : run cx evs initialState = Some (st, es)) :
  (forall a, In a (attendees st) \/ In a (filteredAttendees st) ->
     userId a <> "" /\ PK a = ("USER#" ++ userId a)%string /\ role a = "MEMBER"
     /\ (isLoadingDetails a = true -> userDetails a = None)
     /\ (selectable a = true <-> userDetails a <> None))
  /\ ~ In "" (selectedMembers st)
  /\ (forall url body, In (HttpPost url body) es -> body <> [] /\ ~ In "" body).
Proof.
  assert (H0 : pageShape initialState).
  { split; [|split]; simpl; try (intros a []); intros []. }
  destruct (run_shape cx evs initialState st es Hrun H0) as ((Ha & Hf & Hs) & Hp).
  split; [|split; [exact Hs | exact Hp]].
  intros a Hin.
  assert (Hw : wellFormedEntry a) by (destruct Hin; [now apply Ha | now apply Hf]).
  pose proof (wellFormed_selectable a Hw) as Hsel.
  destruct Hw as (H1 & H2 & H3 & H4); repeat split; try assumption; apply Hsel.
Qed.

(** ** Missing route identifiers *)

Lemma missingIds_true (cx : Context) :
  missingIds cx = true <->
  JS.truthy (orgId cx) = false \/ JS.truthy (eventId cx) = false
  \/ JS.truthy (photoId cx) = false.
Proof.
  unfold missingIds.
  destruct (JS.truthy (orgId cx)), (JS.truthy (eventId cx)),
    (JS.truthy (photoId cx)); simpl; intuition discriminate.
Qed.

(** X21.  The loader starts with a request exactly when the three route
    IDs are present (each a non-empty string).  With one missing it
    sends nothing, stops loading and shows the message about missing
    identifiers, the same text the submitter uses; otherwise it sends
    the one GET of the event, clears the error and shows the spinner. *)
Theorem loader_rejects_missing_ids (cx : Context) (st : PageState) :
  let r := fetchInitialAttendees_start cx st in
  (snd r = [] <-> missingIds cx = true)
  /\ (missingIds cx = true <->
      JS.truthy (orgId cx) = false \/ JS.truthy (eventId cx) = false
      \/ JS.truthy (photoId cx) = false)
  /\ (missingIds cx = true ->
      loading (fst r) = false
      /\ errorAlert (fst r) = Some "Missing organization, event, or photo ID"
      /\ forall post s, selectedMembers s <> [] ->
           errorAlert (fst (handleSubmitTags cx post s)) = errorAlert (fst r))
  /\ (missingIds cx = false ->
      snd r = [HttpGet ("/organizations/" ++ JS.interpolate (orgId cx)
                        ++ "/events/" ++ JS.interpolate (eventId cx))]
      /\ loading (fst r) = true /\ error (fst r) = None)
  /\ attendees (fst r) = attendees st
  /\ selectedMembers (fst r) = selectedMembers st.
Proof.
  cbv zeta; unfold fetchInitialAttendees_start.
  split; [|split; [apply missingIds_true|]].
  - destruct (missingIds cx); simpl; split; try reflexivity; discriminate.
  - destruct (missingIds cx) eqn:Hids; (split; [|split; [|split]]);
      try discriminate; try reflexivity.
    + intros _; split; [reflexivity|]; split; [reflexivity|].
      intros post s Hsel; unfold handleSubmitTags, handleSubmitTags_start.
      destruct (List.length (selectedMembers s) =? 0)%nat eqn:E.
      * apply length_zero_nil in E; contradiction.
      * rewrite Hids; reflexivity.
    + intros _; repeat split.
Qed.

Lemma loader_rejects_missing_ids_witness :
  missingIds contextWithoutOrg = true
  /\ snd (fetchInitialAttendees_start contextWithoutOrg initialState) = []
  /\ loading (fst (fetchInitialAttendees_start contextWithoutOrg initialState)) = false
  /\ missingIds sampleContext = false
  /\ snd (fetchInitialAttendees_start sampleContext initialState)
     = [HttpGet "/organizations/org1/events/ev1"].
Proof.
  destruct (loader_rejects_missing_ids contextWithoutOrg initialState)
    as (Ha & _ & Hb & _).
  destruct (loader_rejects_missing_ids sampleContext initialState)
    as (_ & _ & _ & Hc & _).
  split; [reflexivity|]; split; [exact (proj2 Ha eq_refl)|].
  split; [exact (proj1 (Hb eq_refl))|]; split; [reflexivity|].
  exact (proj1 (Hc eq_refl)).
Defined.

(** ** Enrichment without unique IDs *)

Lemma settleArrivals_cons (arrival : string * option UserDetails)
    (rest : list (string * option UserDetails)) (l : list AttendeeForTagging) :
  settleArrivals (arrival :: rest) l
  = settleArrivals rest (applyDetails (fst arrival) (snd arrival) l).
Proof. reflexivity. Qed.

Lemma settleArrivals_length (arrivals : list (string * option UserDetails)) :
  forall l, List.length (settleArrivals arrivals l) = List.length l.
Proof.
  induction arrivals as [|x rest IH]; intros l; [reflexivity|].
  rewrite settleArrivals_cons, IH; unfold applyDetails; apply length_map.
Qed.

(** After any run of arrivals an entry is untouched or holds what the
    last arrival for its ID brought. *)
Lemma settleArrivals_nth (arrivals : list (string * option UserDetails)) :
  forall (l : list AttendeeForTagging) (i : nat) (a : AttendeeForTagging),
  nth_error l i = Some a ->
  nth_error (settleArrivals arrivals l) i =
  Some (match lastArrival arrivals (userId a) with
        | Some d => withDetails d a
        | None => a
        end).
Proof.
  induction arrivals as [|[u d] rest IH]; intros l i a H; [exact H|].
  rewrite settleArrivals_cons; cbn [fst snd].
  rewrite (IH _ i _ (applyDetails_nth u d l i a H)); cbn [lastArrival fst snd].
  destruct (String.eqb_spec (userId a) u) as [He|Hne].
  - rewrite withDetails_userId.
    destruct (lastArrival rest (userId a)) as [r|]; [reflexivity|].
    now rewrite <- He, String.eqb_refl.
  - destruct (lastArrival rest (userId a)) as [r|]; [reflexivity|].
    destruct (String.eqb_spec u (userId a)) as [E|_]; [congruence | reflexivity].
Qed.

Lemma lastArrival_In (arrivals : list (string * option UserDetails)) (uid : string) :
  In uid (map fst arrivals) -> exists d, lastArrival arrivals uid = Some d.
Proof.
  induction arrivals as [|[u d] rest IH]; [intros []|].
  cbn [map fst lastArrival snd]; intros [->|Hin].
  - destruct (lastArrival rest uid) as [r|]; [now exists r|].
    rewrite String.eqb_refl; now exists d.
  - destruct (IH Hin) as [r ->]; now exists r.
Qed.

(** X22.  Once an arrival has come for every fetch that was started, in
    any order, however often and whatever each one brought, every entry
    holds what the last arrival for its ID brought and none is loading
    any more.  This needs no unique IDs: entries sharing an ID end with
    the same details, those of the arrival that came last. *)
Theorem all_arrivals_settle_every_entry (l : list AttendeeForTagging)
    (arrivals : list (string * option UserDetails))
    (Hall : incl (fetchesStarted l) (map fst arrivals)) :
  (forall i a, nth_error l i = Some a ->
     exists d, lastArrival arrivals (userId a) = Some d
               /\ nth_error (settleArrivals arrivals l) i = Some (withDetails d a))
  /\ (forall a, In a (settleArrivals arrivals l) -> isLoadingDetails a = false)
  /\ (forall a b, In a (settleArrivals arrivals l) ->
                  In b (settleArrivals arrivals l) ->
                  userId a = userId b -> userDetails a = userDetails b)
  /\ map userId (settleArrivals arrivals l) = map userId l.
Proof.
  assert (Hnth : forall i a, nth_error l i = Some a ->
            exists d, lastArrival arrivals (userId a) = Some d
              /\ nth_error (settleArrivals arrivals l) i = Some (withDetails d a)).
  { intros i a Hi.
    assert (Hin : In (userId a) (map fst arrivals)).
    { apply Hall; unfold fetchesStarted; apply in_map.
      now apply nth_error_In with i. }
    destruct (lastArrival_In arrivals _ Hin) as [d Hd].
    exists d; split; [exact Hd|].
    now rewrite (settleArrivals_nth arrivals l i a Hi), Hd. }
  assert (Hback : forall x, In x (settleArrivals arrivals l) ->
            exists a d, In a l /\ lastArrival arrivals (userId a) = Some d
                        /\ x = withDetails d a).
  { intros x Hx; apply In_nth_error in Hx; destruct Hx as [i Hi].
    destruct (nth_error l i) as [a|] eqn:Ha.
    - destruct (Hnth i a Ha) as [d [Hd Hn]].
      exists a, d; split; [now apply nth_error_In with i|].
      split; [exact Hd | congruence].
    - exfalso; apply nth_error_None in Ha.
      assert (Hlt : i < List.length (settleArrivals arrivals l))
        by (apply nth_error_Some; congruence).
      rewrite settleArrivals_length in Hlt; lia. }
  split; [exact Hnth|]; split; [|split].
  - intros x Hx; destruct (Hback x Hx) as (a & d & _ & _ & ->); reflexivity.
  - intros x y Hx Hy Hxy.
    destruct (Hback x Hx) as (a & d & _ & Hd & ->).
    destruct (Hback y Hy) as (b & e & _ & He & ->).
    cbn [userId withDetails] in Hxy; cbn [userDetails withDetails].
    rewrite Hxy in Hd; congruence.
  - apply nth_error_ext; intros i; rewrite !nth_error_map.
    destruct (nth_error l i) as [a|] eqn:Ha.
    + destruct (Hnth i a Ha) as [d [_ ->]]; reflexivity.
    + assert (Hn : nth_error (settleArrivals arrivals l) i = None).
      { apply nth_error_None; rewrite settleArrivals_length.
        now apply nth_error_None. }
      now rewrite Hn.
Qed.

Lemma all_arrivals_settle_every_entry_witness :
  incl (fetchesStarted
          (initialAttendeeList sampleContext [RawString "u01"; RawString "USER#u01"]))
       (map fst [("u01", Some ann); ("u01", None)])
  /\ map userDetails
       (settleArrivals [("u01", Some ann); ("u01", None)]
          (initialAttendeeList sampleContext [RawString "u01"; RawString "USER#u01"]))
     = [None; None]
  /\ nth_error
       (settleArrivals [("u01", Some ann); ("u01", None)]
          (initialAttendeeList sampleContext [RawString "u01"; RawString "USER#u01"])) 0
     = Some (withDetails None (makeAttendee sampleContext (RawString "u01"))).
Proof.
  assert (H : incl (fetchesStarted
                (initialAttendeeList sampleContext [RawString "u01"; RawString "USER#u01"]))
              (map fst [("u01", Some ann); ("u01", None)])).
  { intros x Hx; simpl in Hx; destruct Hx as [<-|[<-|[]]]; now left. }
  split; [exact H|]; split; [reflexivity|].
  destruct (all_arrivals_settle_every_entry _ _ H) as (Hn & _).
  destruct (Hn 0 (makeAttendee sampleContext (RawString "u01")) eq_refl)
    as [d [Hd Hi]].
  injection Hd as <-; exact Hi.
Defined.

End Page.

(** * Worked examples with ASCII text

    The examples below run the page on ASCII text, where
    [JS.toLowerCaseAscii] is JavaScript's [toLowerCase]. *)

Lemma filter_by_search_term_witness :
  filteredAttendees (applyFilter JS.toLowerCaseAscii sampleResolved) =
    [withDetails (Some ann) (makeAttendee sampleContext (RawString "u01"))]
  /\ filteredAttendees (applyFilter JS.toLowerCaseAscii sampleBlankSearch)
     = attendees sampleBlankSearch
  /\ List.length (attendees sampleBlankSearch) = 2.
Proof.
  destruct (filter_by_search_term JS.toLowerCaseAscii sampleResolved)
    as (H1 & H2 & _ & H4).
  destruct (filter_by_search_term JS.toLowerCaseAscii sampleBlankSearch)
    as (B1 & B2 & B3 & _).
  split; [|split; [|reflexivity]].
  - assert (Hn : ~ whitespaceOnly (searchTerm sampleResolved)).
    { intros Hw; apply (proj2 H2) in Hw; vm_compute in Hw; discriminate Hw. }
    rewrite H1, (proj1 (H4 Hn)); reflexivity.
  - rewrite B1; apply B3, (proj1 B2); reflexivity.
Defined.

Lemma no_load_more_while_searching_witness :
  match run JS.toLowerCaseAscii sampleContext sampleSearchSession initialState with
  | Some (st, _) =>
      searchTerm st <> ""
      /\ loadMoreRendered st = false
      /\ visibleAttendees st =
         firstn (Nat.min (List.length (filteredAttendees st)) 12) (filteredAttendees st)
  | None => False
  end.
Proof.
  destruct (run JS.toLowerCaseAscii sampleContext sampleSearchSession initialState)
    as [[st es]|] eqn:Hrun.
  - assert (Hne : searchTerm st <> "").
    { vm_compute in Hrun; injection Hrun as <- _; discriminate. }
    split; [exact Hne|].
    destruct (no_load_more_while_searching JS.toLowerCaseAscii sampleContext
                sampleSearchSession st es Hrun Hne) as (H1 & _ & _ & H4).
    exact (conj H1 H4).
  - vm_compute in Hrun; discriminate Hrun.
Defined.

Lemma selection_has_no_duplicates_witness :
  selectedMembers (setSelectedMembers ["u02"] initialState)
    = toggleAll ["u01"; "u02"; "u01"] []
  /\ NoDup (toggleAll ["u01"; "u02"; "u01"] [])
  /\ match run JS.toLowerCaseAscii sampleContext sampleTagSession initialState with
     | Some (st, es) =>
         selectedMembers st = ["u01"]
         /\ In (HttpPost "/organizations/org1/events/ev1/photos/ph1/tags" ["u01"]) es
         /\ NoDup (selectedMembers st) /\ postsDuplicateFree es
     | None => False
     end.
Proof.
  split; [reflexivity|].
  destruct (run JS.toLowerCaseAscii sampleContext sampleTagSession initialState)
    as [[st es]|] eqn:Hrun.
  - destruct (selection_has_no_duplicates JS.toLowerCaseAscii sampleContext
                ["u01"; "u02"; "u01"] []
                "u01" (fun _ _ => PostOk) (setSelectedMembers ["u02"] initialState)
                sampleTagSession st es eq_refl Hrun)
      as (H1 & _ & _ & _ & _ & H6 & H7).
    split; [exact H1|].
    vm_compute in Hrun; injection Hrun as <- <-.
    split; [reflexivity|]; split; [|exact (conj H6 H7)].
    do 14 right; left; reflexivity.
  - vm_compute in Hrun; discriminate Hrun.
Defined.

Lemma search_ignores_case_of_term_witness :
  (forall s, JS.toLowerCaseAscii (JS.toLowerCaseAscii s) = JS.toLowerCaseAscii s)
  /\ (forall s, JS.trim (JS.toLowerCaseAscii s) = "" <-> JS.trim s = "")
  /\ JS.toLowerCaseAscii "ANN" = JS.toLowerCaseAscii "anN"
  /\ filterAttendees JS.toLowerCaseAscii "ANN" (attendees sampleResolved)
     = filterAttendees JS.toLowerCaseAscii "anN" (attendees sampleResolved).
Proof.
  split; [exact toLowerCaseAscii_twice|]; split; [exact trim_lower_ascii|].
  split; [reflexivity|].
  exact (proj1 (search_ignores_case_of_term JS.toLowerCaseAscii "ANN" "anN"
                  (attendees sampleResolved)
                  toLowerCaseAscii_twice trim_lower_ascii eq_refl)).
Defined.

Lemma blank_term_hides_load_more_witness :
  (" " ++ JS.utf8 160)%string <> "" /\ whitespaceOnly (" " ++ JS.utf8 160)
  /\ List.length
       (visibleAttendees
          (applyFilter JS.toLowerCaseAscii
             (handleSearchChange (" " ++ JS.utf8 160) sampleLoaded))) = 12
  /\ hasMore (applyFilter JS.toLowerCaseAscii
                (handleSearchChange (" " ++ JS.utf8 160) sampleLoaded)) = true
  /\ loadMoreRendered (applyFilter JS.toLowerCaseAscii
                         (handleSearchChange (" " ++ JS.utf8 160) sampleLoaded))
     = false.
Proof.
  assert (H1 : (" " ++ JS.utf8 160)%string <> "") by discriminate.
  assert (H2 : whitespaceOnly (" " ++ JS.utf8 160)).
  { exists [32; 160]%N; split; [|reflexivity].
    intros cp [<-|[<-|[]]]; vm_compute;
      repeat (first [left; reflexivity | right]). }
  split; [exact H1|]; split; [exact H2|].
  destruct (blank_term_hides_load_more JS.toLowerCaseAscii sampleContext sampleLoaded
              (" " ++ JS.utf8 160) H1 H2)
    as (_ & Hv & Hm & Hr & _).
  split; [rewrite Hv; reflexivity|]; split; [rewrite Hm; reflexivity | exact Hr].
Defined.

Lemma search_keeps_selection_witness :
  selectedMembers sampleSelection <> [] /\ missingIds sampleContext = false
  /\ selectedMembers (applyFilter JS.toLowerCaseAscii
                        (handleSearchChange "zzz" sampleSelection))
     = ["u01"; "u02"]
  /\ filteredAttendees (applyFilter JS.toLowerCaseAscii
                          (handleSearchChange "zzz" sampleSelection)) = [].
Proof.
  assert (H1 : selectedMembers sampleSelection <> []) by discriminate.
  split; [exact H1|]; split; [reflexivity|].
  destruct (search_keeps_selection JS.toLowerCaseAscii sampleContext sampleSelection
              "zzz" H1 eq_refl)
    as (_ & Hf & _ & _ & _ & Hs & _).
  split; [exact Hs | rewrite Hf; reflexivity].
Defined.

Lemma load_more_reaches_the_end_witness :
  displayCount sampleLoaded <= List.length (filteredAttendees sampleLoaded)
  /\ List.length (filteredAttendees sampleLoaded) <= displayCount sampleLoaded + 12 * 1
  /\ visibleAttendees (loadMoreTimes 1 sampleLoaded) = filteredAttendees sampleLoaded
  /\ visibleAttendees sampleLoaded
     = firstn 12 (visibleAttendees (fst (handleLoadMore sampleLoaded))).
Proof.
  assert (H1 : displayCount sampleLoaded <= List.length (filteredAttendees sampleLoaded))
    by (vm_compute; repeat constructor).
  assert (H2 : List.length (filteredAttendees sampleLoaded)
               <= displayCount sampleLoaded + 12 * 1)
    by (vm_compute; repeat constructor).
  split; [exact H1|]; split; [exact H2|].
  destruct (load_more_reaches_the_end JS.toLowerCaseAscii sampleContext sampleLoaded 1)
    as (Ha & Hb & _).
  split; [exact (Hb H2)|].
  destruct (Ha H1) as (_ & _ & Hp); exact Hp.
Defined.

Lemma card_click_selects_only_resolved_witness :
  dispatch JS.toLowerCaseAscii sampleContext (ClickCard 1) sampleLoaded
    = Some (sampleLoaded, [])
  /\ 1 < displayCount sampleLoaded.
Proof.
  assert (H : dispatch JS.toLowerCaseAscii sampleContext (ClickCard 1) sampleLoaded
              = Some (sampleLoaded, [])) by reflexivity.
  split; [exact H|].
  exact (proj1 (proj2 (card_click_selects_only_resolved JS.toLowerCaseAscii
                         sampleContext 1 sampleLoaded sampleLoaded [] H))).
Defined.

Lemma submit_button_outcomes_witness :
  dispatch JS.toLowerCaseAscii sampleContext ClickSubmit
    (setLoading false sampleSelection)
    = Some (setSuccess None (setError None
              (setSubmitting true (setLoading false sampleSelection))),
            [HttpPost "/organizations/org1/events/ev1/photos/ph1/tags" ["u01"; "u02"]])
  /\ selectedMembers (setLoading false sampleSelection) <> [].
Proof.
  assert (H : dispatch JS.toLowerCaseAscii sampleContext ClickSubmit
                (setLoading false sampleSelection)
    = Some (setSuccess None (setError None
              (setSubmitting true (setLoading false sampleSelection))),
            [HttpPost "/organizations/org1/events/ev1/photos/ph1/tags" ["u01"; "u02"]]))
    by reflexivity.
  split; [exact H|].
  exact (proj1 (submit_button_outcomes JS.toLowerCaseAscii sampleContext _ _ _ H)).
Defined.

Lemma one_submission_in_flight_witness :
  match run JS.toLowerCaseAscii sampleContext sampleTagSession initialState with
  | Some (st, es) => countPosts es = 1 /\ submitting st = true
  | None => False
  end.
Proof.
  destruct (run JS.toLowerCaseAscii sampleContext sampleTagSession initialState)
    as [[st es]|] eqn:Hrun.
  - destruct (one_submission_in_flight JS.toLowerCaseAscii sampleContext
                sampleTagSession st es Hrun)
      as (Hc & _ & _).
    assert (Hs : submitting st = true)
      by (vm_compute in Hrun; injection Hrun as <- _; reflexivity).
    split; [|exact Hs].
    rewrite Hc; unfold pendingPosts; rewrite Hs; reflexivity.
  - vm_compute in Hrun; discriminate Hrun.
Defined.

Lemma entries_stay_well_formed_witness :
  match run JS.toLowerCaseAscii sampleContext sampleTagSession initialState with
  | Some (st, es) =>
      ~ In "" (selectedMembers st)
      /\ In (HttpPost "/organizations/org1/events/ev1/photos/ph1/tags" ["u01"]) es
      /\ ["u01"] <> []
  | None => False
  end.
Proof.
  destruct (run JS.toLowerCaseAscii sampleContext sampleTagSession initialState)
    as [[st es]|] eqn:Hrun.
  - destruct (entries_stay_well_formed JS.toLowerCaseAscii sampleContext
                sampleTagSession st es Hrun)
      as (_ & Hs & Hp).
    split; [exact Hs|].
    assert (Hin : In (HttpPost "/organizations/org1/events/ev1/photos/ph1/tags" ["u01"]) es).
    { vm_compute in Hrun; injection Hrun as _ <-. do 14 right; left; reflexivity. }
    split; [exact Hin | exact (proj1 (Hp _ _ Hin))].
  - vm_compute in Hrun; discriminate Hrun.
Defined.
